(** * The importer's validation core (opentreemap/importer/models.py)

    A shallow embedding of [GenericImportEvent] and [GenericImportRow]:
    the status labels, the JSON-backed error lists, the structural check of
    the uploaded file and the four field-group validators of a row.

    Conventions of the embedding.
    - A Python object mutated through [self] is a record passed in and
      returned.
    - A [TextField] holding a JSON document is a [json_text]: Python's
      [None], the empty string, or the document itself.  [json.loads] of
      what [json.dumps] wrote is the identity on the values stored here
      (integers, strings, booleans, [None], lists of strings), the tuple
      built by [append_error] for a single field coming back as a list.
    - A dict with string keys is a [gmap string _].
    - Python's [float] is IEEE binary64, the kernel's [PrimFloat.float]. *)

From Stdlib Require Import ZArith String Ascii List Lia Uint63.
From Corelib Require PrimFloat.
From stdpp Require Import base option list strings gmap.

Local Open Scope string_scope.
Local Open Scope Z_scope.

(** ** Shared data *)

(** An entry of [importer/errors.py]: (code, message, fatal). *)
Definition error_def : Type := Z * string * bool.

(** The error registry [importer/errors.py] is imported by the source and
    is not part of it: the validators are stated over any registry. *)
Module errors.
Record table : Type := {
  EMPTY_FILE : error_def;
  UNMATCHED_FIELDS : error_def;
  FLOAT_ERROR : error_def;
  POS_FLOAT_ERROR : error_def;
  INT_ERROR : error_def;
  POS_INT_ERROR : error_def;
  BOOL_ERROR : error_def;
  STRING_TOO_LONG : error_def;
  INVALID_DATE : error_def
}.

(** Modelled from the spec: the registry [importer/errors.py], of which
    section 7 of the specification fixes the fatal flag of every code
    (EmptyFile, the numeric errors, BoolParseError and StringTooLong are
    fatal; UnmatchedFields and InvalidDate are warnings).  Codes and
    messages are not given there; the ones below only tell the entries
    apart. *)
Definition spec_table : table := {|
  EMPTY_FILE := (1, "empty file", true);
  UNMATCHED_FIELDS := (3, "unmatched fields", false);
  FLOAT_ERROR := (40, "float parse error", true);
  POS_FLOAT_ERROR := (41, "positive float constraint", true);
  INT_ERROR := (42, "int parse error", true);
  POS_INT_ERROR := (43, "positive int constraint", true);
  BOOL_ERROR := (44, "bool parse error", true);
  STRING_TOO_LONG := (45, "string too long", true);
  INVALID_DATE := (46, "invalid date", false)
|}.
End errors.

(** A text column that holds a JSON document. *)
Inductive json_text (A : Type) : Type :=
| TextNone
| TextEmpty
| TextJson (doc : A).
Arguments TextNone {A}.
Arguments TextEmpty {A}.
Arguments TextJson {A} doc.

(** ** GenericImportEvent *)

Module GenericImportEvent.

Definition PENDING_VERIFICATION : Z := 1.
Definition VERIFIYING : Z := 2.
Definition FINISHED_VERIFICATION : Z := 3.
Definition CREATING : Z := 4.
Definition FINISHED_CREATING : Z := 5.
Definition FAILED_FILE_VERIFICATION : Z := 6.

(** One element of the decoded [errors] column:
    [{'code', 'msg', 'data', 'fatal'}]. *)
Record error : Type := {
  code : Z;
  msg : string;
  data : option (list string);
  fatal : bool
}.

(** The instance; [saves] counts the calls of [save()]. *)
Record t : Type := {
  file_name : string;
  errors : json_text (list error);
  field_order : string;
  status : Z;
  commited : bool;
  saves : nat
}.

Definition set_errors (v : json_text (list error)) (self : t) : t :=
  {| file_name := file_name self; errors := v;
     field_order := field_order self; status := status self;
     commited := commited self; saves := saves self |}.

Definition set_status (v : Z) (self : t) : t :=
  {| file_name := file_name self; errors := errors self;
     field_order := field_order self; status := v;
     commited := commited self; saves := saves self |}.

Definition save (self : t) : t :=
  {| file_name := file_name self; errors := errors self;
     field_order := field_order self; status := status self;
     commited := commited self; saves := S (saves self) |}.

Definition status_summary (self : t) : string :=
  if status self =? PENDING_VERIFICATION then "Not Yet Started"
  else if status self =? VERIFIYING then "Verifying"
  else if status self =? FINISHED_VERIFICATION then "Verification Complete"
  else if status self =? CREATING then "Creating Trees"
  else if status self =? FAILED_FILE_VERIFICATION then "Invalid File Structure"
  else "Finished".

Definition active (self : t) : bool :=
  negb (status self =? FINISHED_CREATING).

Definition is_running (self : t) : bool :=
  (status self =? VERIFIYING) || (status self =? CREATING).

Definition is_finished (self : t) : bool :=
  (status self =? FINISHED_VERIFICATION)
  || (status self =? FINISHED_CREATING)
  || (status self =? FAILED_FILE_VERIFICATION).

Definition errors_as_array (self : t) : list error :=
  match errors self with
  | TextNone | TextEmpty => []
  | TextJson l => l
  end.

Definition has_errors (self : t) : bool :=
  (0 <? Z.of_nat (length (errors_as_array self))).

Definition append_error (err : error_def) (d : option (list string))
    (self : t) : t :=
  let '(c, m, f) := err in
  let self :=
    match errors self with
    | TextNone | TextEmpty => set_errors (TextJson []) self
    | TextJson _ => self
    end in
  set_errors
    (TextJson (errors_as_array self
               ++ [ {| code := c; msg := m; data := d; fatal := f |} ])%list)
    self.

(** The record [append_error err d] adds. *)
Definition error_of (err : error_def) (d : option (list string)) : error :=
  {| code := err.1.1; msg := err.1.2; data := d; fatal := err.2 |}.

(** A new event, with the defaults of the columns. *)
Definition init (name : string) : t :=
  {| file_name := name; errors := TextEmpty; field_order := "";
     status := PENDING_VERIFICATION; commited := false; saves := 0 |}.

Section validate_main_file.
Variable E : errors.table.

(** [datasource] is the ordered row set, each row given by its decoded
    [data] document; [fieldsource] the expected field set. *)
Definition _validate_main_file
    (datasource : list (gmap string string)) (fieldsource : gset string)
    (validate_custom_fields : gset string -> option error_def)
    (self : t) : bool * t :=
  let '(is_valid, self) :=
    match datasource with
    | [] => (false, append_error (errors.EMPTY_FILE E) None self)
    | row0 :: _ =>
      let input_fields : gset string := dom row0 in
      let '(is_valid, self) :=
        match validate_custom_fields input_fields with
        | Some custom_error => (false, append_error custom_error None self)
        | None => (true, self)
        end in
      let rem := input_fields ∖ fieldsource in
      if (0 <? Z.of_nat (length (elements rem)))
      then (false,
            append_error (errors.UNMATCHED_FIELDS E)
              (Some (elements rem)) self)
      else (is_valid, self)
    end in
  if negb is_valid
  then (is_valid, save (set_status FAILED_FILE_VERIFICATION self))
  else (is_valid, self).
End validate_main_file.

End GenericImportEvent.

(** ** Python built-ins used by the row validators *)

(** Truth value of a string: non-empty. *)
Definition truthy (s : string) : bool := negb (String.eqb s "").

(** [unicode.lower()] on the letters A-Z.  Outside ASCII, lowering yields an
    ASCII letter only for the Kelvin sign (k) and the dotted capital I (i);
    neither letter occurs in a word [safe_bool] compares with. *)
Definition lower_char (c : ascii) : ascii :=
  let n := N_of_ascii c in
  if ((65 <=? n) && (n <=? 90))%N then ascii_of_N (n + 32) else c.

Fixpoint lower (s : string) : string :=
  match s with
  | EmptyString => EmptyString
  | String c rest => String (lower_char c) (lower rest)
  end.

(** [datetime.strptime(value, '%Y-%m-%d')], following Lib/_strptime.py: the
    format compiles to the regular expression
    [(\d\d\d\d)-(1[0-2]|0[1-9]|[1-9])-(3[01]|[12]\d|0[1-9]|[1-9]| [1-9])],
    matched at the start of the string with the alternatives tried in
    order; text left over after the match and a day the calendar does not
    have are both a [ValueError], here [None]. *)
Module datetime.

Record date : Type := { year : Z; month : Z; day : Z }.

Definition cls (lo hi c : ascii) : bool :=
  ((N_of_ascii lo <=? N_of_ascii c) && (N_of_ascii c <=? N_of_ascii hi))%N.

Definition is_digit (c : ascii) : bool := cls "0" "9" c.

Definition digit (c : ascii) : Z := Z.of_N (N_of_ascii c) - 48.

(** A group applied to the remaining input: every way it can match, in
    the order the regular expression tries them. *)
Definition group : Type := list ascii -> list (Z * list ascii).

Definition re_Y : group := fun s =>
  match s with
  | a :: b :: c :: d :: rest =>
    if is_digit a && is_digit b && is_digit c && is_digit d
    then [(1000 * digit a + 100 * digit b + 10 * digit c + digit d, rest)]
    else []
  | _ => []
  end.

(** One character of class [lo-hi] after the fixed character [c0],
    read as the number [tens * 10 + digit]. *)
Definition two (c0 lo hi : ascii) (tens : Z) : group := fun s =>
  match s with
  | a :: b :: rest =>
    if Ascii.eqb a c0 && cls lo hi b then [(10 * tens + digit b, rest)]
    else []
  | _ => []
  end.

Definition one (lo hi : ascii) : group := fun s =>
  match s with
  | a :: rest => if cls lo hi a then [(digit a, rest)] else []
  | _ => []
  end.

Definition re_m : group := fun s =>
  (two "1" "0" "2" 1 s ++ two "0" "1" "9" 0 s ++ one "1" "9" s)%list.

Definition re_d : group := fun s =>
  (two "3" "0" "1" 3 s ++ two "1" "0" "9" 1 s ++ two "2" "0" "9" 2 s
   ++ two "0" "1" "9" 0 s ++ one "1" "9" s ++ two " " "1" "9" 0 s)%list.

Definition dash (s : list ascii) : list (list ascii) :=
  match s with
  | a :: rest => if Ascii.eqb a "-" then [rest] else []
  | _ => []
  end.

Definition is_leap (y : Z) : bool :=
  ((y mod 4 =? 0) && negb (y mod 100 =? 0)) || (y mod 400 =? 0).

Definition days_in_month (y m : Z) : Z :=
  if m =? 2 then (if is_leap y then 29 else 28)
  else if (m =? 4) || (m =? 6) || (m =? 9) || (m =? 11) then 30
  else 31.

(** The constructor's range check ([MINYEAR] is 1). *)
Definition valid (y m d : Z) : bool :=
  (1 <=? y) && (y <=? 9999) && (1 <=? m) && (m <=? 12)
  && (1 <=? d) && (d <=? days_in_month y m).

Definition regex_match (s : list ascii) : list (Z * Z * Z * list ascii) :=
  '(y, s1) ← re_Y s;
  s2 ← dash s1;
  '(m, s3) ← re_m s2;
  s4 ← dash s3;
  '(d, s5) ← re_d s4;
  [(y, m, d, s5)].

Definition strptime_Ymd (value : string) : option date :=
  match regex_match (list_ascii_of_string value) with
  | [] => None
  | (y, m, d, rest) :: _ =>
    match rest with
    | [] => if valid y m d
            then Some {| year := y; month := m; day := d |}
            else None
    | _ :: _ => None
    end
  end.

End datetime.

(** ** GenericImportRow *)

(** A value of the [cleaned] dict. *)
Inductive value : Type :=
| VFloat (x : PrimFloat.float)
| VInt (n : Z)
| VBool (b : bool)
| VStr (s : string)
| VDate (d : datetime.date).

(** The field catalog behind the abstract property [model_fields]. *)
Record catalog : Type := {
  POS_FLOAT_FIELDS : list string;
  FLOAT_FIELDS : list string;
  POS_INT_FIELDS : list string;
  BOOLEAN_FIELDS : list string;
  STRING_FIELDS : list string;
  DATE_FIELDS : list string;
  DATE_PLANTED : string
}.

(** The [fields] argument of the row's [append_error]: one name or a
    sequence of names. *)
Inductive fields_arg : Type :=
| Field (f : string)
| Fields (fs : list string).

(** What a method returns when a dict lookup may raise. *)
Inductive result (A : Type) : Type :=
| Ok (a : A)
| KeyError (key : string).
Arguments Ok {A} a.
Arguments KeyError {A} key.

Module GenericImportRow.

Definition SUCCESS : Z := 0.
Definition ERROR : Z := 1.
Definition WARNING : Z := 2.
Definition WAITING : Z := 3.
Definition VERIFIED : Z := 4.

(** One element of the decoded [errors] column:
    [{'code', 'fields', 'msg', 'data', 'fatal'}]. *)
Record error : Type := {
  code : Z;
  fields : list string;
  msg : string;
  data : option (list string);
  fatal : bool
}.

(** The instance.  [datadict] is the decoded [data] column (the cache
    [jsondata]); no method below writes to it. *)
Record t : Type := {
  datadict : gmap string string;
  idx : Z;
  finished : bool;
  errors : json_text (list error);
  status : Z;
  cleaned : gmap string value
}.

Definition set_errors (v : json_text (list error)) (self : t) : t :=
  {| datadict := datadict self; idx := idx self; finished := finished self;
     errors := v; status := status self; cleaned := cleaned self |}.

(** [self.cleaned[f] = v] *)
Definition set_cleaned (f : string) (v : value) (self : t) : t :=
  {| datadict := datadict self; idx := idx self; finished := finished self;
     errors := errors self; status := status self;
     cleaned := <[f := v]> (cleaned self) |}.

Definition errors_as_array (self : t) : list error :=
  match errors self with
  | TextNone | TextEmpty => []
  | TextJson l => l
  end.

Definition has_errors (self : t) : bool :=
  (0 <? Z.of_nat (length (errors_as_array self))).

Fixpoint copy_fields (dd : gmap string string) (fs : list string)
    (acc : gmap string string) : result (gmap string string) :=
  match fs with
  | [] => Ok acc
  | field :: rest =>
    match dd !! field with
    | Some v => copy_fields dd rest (<[field := v]> acc)
    | None => KeyError field
    end
  end.

Fixpoint copy_errors (dd : gmap string string) (es : list error)
    (acc : gmap string string) : result (gmap string string) :=
  match es with
  | [] => Ok acc
  | e :: rest =>
    match copy_fields dd (fields e) acc with
    | Ok acc' => copy_errors dd rest acc'
    | KeyError k => KeyError k
    end
  end.

Definition get_fields_with_error (self : t) : result (gmap string string) :=
  copy_errors (datadict self) (errors_as_array self) ∅.

Definition has_fatal_error (self : t) : bool :=
  match errors self with
  | TextNone | TextEmpty => false
  | TextJson l => existsb fatal l
  end.

(** [json.loads(self.errors)] where [append_error] calls it: the column
    holds a document by then. *)
Definition loads_errors (self : t) : list error :=
  match errors self with
  | TextJson l => l
  | TextNone | TextEmpty => []
  end.

Definition append_error (err : error_def) (flds : fields_arg)
    (d : option (list string)) (self : t) : t :=
  let '(c, m, f) := err in
  let self :=
    match errors self with
    | TextNone | TextEmpty => set_errors (TextJson []) self
    | TextJson _ => self
    end in
  let flds := match flds with Field s => [s] | Fields fs => fs end in
  set_errors
    (TextJson (loads_errors self
               ++ [ {| code := c; fields := flds; msg := m; data := d;
                       fatal := f |} ])%list)
    self.

(** The record [append_error err flds d] adds. *)
Definition error_of (err : error_def) (flds : list string)
    (d : option (list string)) : error :=
  {| code := err.1.1; fields := flds; msg := err.1.2; data := d;
     fatal := err.2 |}.

(** A new row: the defaults of the columns and the [cleaned = {}] of
    [__init__]. *)
Definition init (d : gmap string string) (i : Z) : t :=
  {| datadict := d; idx := i; finished := false; errors := TextEmpty;
     status := WAITING; cleaned := ∅ |}.

(** The stored errors that name field [f]. *)
Definition naming (f : string) (es : list error) : list error :=
  filter (λ e, f ∈ fields e) es.

Section validators.
Variable E : errors.table.
Variable model_fields : catalog.
(** The built-ins [float] and [int] on a string: the number, or [None]
    where they raise. *)
Variable float : string -> option PrimFloat.float.
Variable int : string -> option Z.

(** The four [safe_*] methods that return a number return [False] on
    failure, which the callers tell from a number by identity
    ([is False]): [None] here. *)
Definition safe_float (fld : string) (self : t)
    : option PrimFloat.float * t :=
  match datadict self !! fld ≫= float with
  | Some x => (Some x, self)
  | None => (None, append_error (errors.FLOAT_ERROR E) (Field fld) None self)
  end.

(** Returns (success, bool value). *)
Definition safe_bool (fld : string) (self : t)
    : (bool * option bool) * t :=
  let v := lower (default "" (datadict self !! fld)) in
  if String.eqb v "" then ((true, None), self)
  else if String.eqb v "true" || String.eqb v "t" || String.eqb v "yes"
  then ((true, Some true), self)
  else if String.eqb v "false" || String.eqb v "f" || String.eqb v "no"
  then ((true, Some false), self)
  else ((false, None),
        append_error (errors.BOOL_ERROR E) (Field fld) None self).

Definition safe_int (fld : string) (self : t) : option Z * t :=
  match datadict self !! fld ≫= int with
  | Some n => (Some n, self)
  | None => (None, append_error (errors.INT_ERROR E) (Field fld) None self)
  end.

Definition safe_pos_int (fld : string) (self : t) : option Z * t :=
  let '(i, self) := safe_int fld self in
  match i with
  | None => (None, self)
  | Some n =>
    if n <? 0
    then (None,
          append_error (errors.POS_INT_ERROR E) (Field fld) None self)
    else (Some n, self)
  end.

Definition safe_pos_float (fld : string) (self : t)
    : option PrimFloat.float * t :=
  let '(i, self) := safe_float fld self in
  match i with
  | None => (None, self)
  | Some x =>
    if PrimFloat.ltb x PrimFloat.zero
    then (None,
          append_error (errors.POS_FLOAT_ERROR E) (Field fld) None self)
    else (Some x, self)
  end.

(** A [for f in flds:] loop whose body updates the local flag
    [has_errors] and [self]. *)
Definition for_each (body : bool * t -> string -> bool * t)
    (flds : list string) (has_errors : bool) (self : t) : bool * t :=
  foldl body (has_errors, self) flds.

(** The local function [cleanup] of [validate_numeric_fields]; [inj]
    tells which kind of number [fn] returns. *)
Definition cleanup_body {A : Type} (inj : A -> value)
    (fn : string -> t -> option A * t) (st : bool * t) (f : string)
    : bool * t :=
  let '(has_errors, self) := st in
  match datadict self !! f with
  | Some raw =>
    if truthy raw
    then
      let '(maybe_num, self) := fn f self in
      match maybe_num with
      | None => (true, self)
      | Some num => (has_errors, set_cleaned f (inj num) self)
      end
    else (has_errors, self)
  | None => (has_errors, self)
  end.

Definition cleanup {A : Type} (inj : A -> value) (flds : list string)
    (fn : string -> t -> option A * t) (self : t) : bool * t :=
  for_each (cleanup_body inj fn) flds false self.

Definition validate_numeric_fields (self : t) : bool * t :=
  let '(pfloat_ok, self) :=
    cleanup VFloat (POS_FLOAT_FIELDS model_fields) safe_pos_float self in
  let '(float_ok, self) :=
    cleanup VFloat (FLOAT_FIELDS model_fields) safe_float self in
  let '(int_ok, self) :=
    cleanup VInt (POS_INT_FIELDS model_fields) safe_pos_int self in
  (pfloat_ok && float_ok && int_ok, self).

Definition boolean_body (st : bool * t) (f : string) : bool * t :=
  let '(has_errors, self) := st in
  match datadict self !! f with
  | Some _ =>
    let '((success, v), self) := safe_bool f self in
    match success, v with
    | true, Some b => (has_errors, set_cleaned f (VBool b) self)
    | _, _ => (true, self)
    end
  | None => (has_errors, self)
  end.

Definition validate_boolean_fields (self : t) : bool * t :=
  for_each boolean_body (BOOLEAN_FIELDS model_fields) false self.

Definition string_body (st : bool * t) (field : string) : bool * t :=
  let '(has_errors, self) := st in
  match datadict self !! field with
  | Some val =>
    if truthy val
    then
      if 255 <? Z.of_nat (String.length val)
      then (true,
            append_error (errors.STRING_TOO_LONG E) (Field field) None self)
      else (has_errors, set_cleaned field (VStr val) self)
    else (has_errors, self)
  | None => (has_errors, self)
  end.

Definition validate_string_fields (self : t) : bool * t :=
  for_each string_body (STRING_FIELDS model_fields) false self.

Definition date_body (st : bool * t) (field : string) : bool * t :=
  let '(has_errors, self) := st in
  match datadict self !! field with
  | Some val =>
    if truthy val
    then
      match datetime.strptime_Ymd val with
      | Some datep =>
        (has_errors,
         set_cleaned (DATE_PLANTED model_fields) (VDate datep) self)
      | None =>
        (true,
         append_error (errors.INVALID_DATE E)
           (Field (DATE_PLANTED model_fields)) None self)
      end
    else (has_errors, self)
  | None => (has_errors, self)
  end.

Definition validate_date_fields (self : t) : bool * t :=
  for_each date_body (DATE_FIELDS model_fields) false self.

Definition validate_and_convert_datatypes (self : t) : t :=
  let '(_, self) := validate_numeric_fields self in
  let '(_, self) := validate_boolean_fields self in
  let '(_, self) := validate_string_fields self in
  let '(_, self) := validate_date_fields self in
  self.

End validators.

Section units.
(** The built-in [float] on a string and on an integer: the number, or
    [None] where it raises. *)
Variable float : string -> option PrimFloat.float.
Variable float_of_int : Z -> option PrimFloat.float.

(** [float(v)] for a value of the [cleaned] dict; a date is a [TypeError]. *)
Definition float_of_value (v : value) : option PrimFloat.float :=
  match v with
  | VFloat x => Some x
  | VInt n => float_of_int n
  | VBool b => Some (if b then PrimFloat.one else PrimFloat.zero)
  | VStr s => float s
  | VDate _ => None
  end.

Definition INCHES_TO_DBH_FACTOR : PrimFloat.float := PrimFloat.one.

(** One turn of the loop of [convert_units]; [None] once [float] raised. *)
Definition convert_step (acc : option (gmap string value))
    (item : string * PrimFloat.float) : option (gmap string value) :=
  match acc with
  | None => None
  | Some data =>
    let '(fld, factor) := item in
    match data !! fld with
    | Some v =>
      if negb (PrimFloat.eqb factor PrimFloat.one)
      then
        match float_of_value v with
        | Some x =>
          Some (<[fld := VFloat (PrimFloat.mul (PrimFloat.mul x factor)
                                   INCHES_TO_DBH_FACTOR)]> data)
        | None => None
        end
      else Some data
    | None => Some data
    end
  end.

(** [convert_units(data, converts)]: the dict [data] after the loop over
    the items of [converts], or [None] when a conversion raised. *)
Definition convert_units (data : gmap string value)
    (converts : gmap string PrimFloat.float) : option (gmap string value) :=
  foldl convert_step (Some data) (map_to_list converts).
End units.

End GenericImportRow.

Module Ev := GenericImportEvent.
Module Row := GenericImportRow.

(** ** GenericImportEvent: the queries over the row set *)

(** [row_set()] is abstract in the source: the rows of the event are a
    parameter, a list.  [.values('status').annotate(Count('status'))]
    yields one record per status that occurs, with the number of rows that
    have it. *)
Module EventRows.

Definition count_status (rows : list Row.t) (st : Z) : nat :=
  length (filter (fun r => Row.status r = st) rows).

Definition values_status_count (rows : list Row.t) : list (Z * nat) :=
  (fun st => (st, count_status rows st)) <$> remove_dups (Row.status <$> rows).

Definition row_counts_by_status (row_set : list Row.t) : gmap Z nat :=
  list_to_map (values_status_count row_set).

Definition completed_row_count (row_set : list Row.t) : Z :=
  let n_left := default 0%nat (row_counts_by_status row_set !! Row.WAITING) in
  Z.of_nat (length row_set) - Z.of_nat n_left.

End EventRows.

(** ** Sample inputs *)

Module sample.

(** Stand-ins for the built-ins [int] and [float], defined on plain ASCII
    integer literals (an optional sign, then digits) of at most fifteen
    digits, where they return what Python returns; they serve to run the
    validators on examples. *)
Fixpoint digits (s : list ascii) (acc : Z) : option Z :=
  match s with
  | [] => Some acc
  | c :: rest =>
    if datetime.is_digit c then digits rest (10 * acc + datetime.digit c)
    else None
  end.

Definition unsigned (s : list ascii) : option Z :=
  match s with
  | [] => None
  | _ :: _ => if (length s <=? 15)%nat then digits s 0 else None
  end.

Definition int (s : string) : option Z :=
  match list_ascii_of_string s with
  | "-"%char :: rest => Z.opp <$> unsigned rest
  | "+"%char :: rest => unsigned rest
  | l => unsigned l
  end.

Definition float_of_Z (n : Z) : PrimFloat.float :=
  let x := PrimFloat.of_uint63 (Uint63.of_Z (Z.abs n)) in
  if n <? 0 then PrimFloat.opp x else x.

Definition float (s : string) : option PrimFloat.float :=
  float_of_Z <$> int s.

(** A catalog in the style of the tree importer's. *)
Definition trees : catalog := {|
  POS_FLOAT_FIELDS := ["diameter"; "tree height"; "canopy height"];
  FLOAT_FIELDS := ["point x"; "point y"];
  POS_INT_FIELDS := ["opentreemap id number"];
  BOOLEAN_FIELDS := ["read only"];
  STRING_FIELDS := ["street address"; "city"];
  DATE_FIELDS := ["date planted"];
  DATE_PLANTED := "date planted"
|}.

(** The same catalog with a second date field. *)
Definition two_dates : catalog := {|
  POS_FLOAT_FIELDS := POS_FLOAT_FIELDS trees;
  FLOAT_FIELDS := FLOAT_FIELDS trees;
  POS_INT_FIELDS := POS_INT_FIELDS trees;
  BOOLEAN_FIELDS := BOOLEAN_FIELDS trees;
  STRING_FIELDS := STRING_FIELDS trees;
  DATE_FIELDS := ["date planted"; "date removed"];
  DATE_PLANTED := "date planted"
|}.

Definition row (kvs : list (string * string)) : Row.t :=
  Row.init (list_to_map kvs) 0.

Definition no_custom_error : gset string -> option error_def :=
  fun _ => None.

End sample.

(** ** Vocabulary of the statements *)

(** A sequence of [append_error] calls on an event. *)
Definition ev_append_all (calls : list (error_def * option (list string)))
    (self : Ev.t) : Ev.t :=
  foldl (fun s c => Ev.append_error c.1 c.2 s) self calls.

(** The names a [fields] argument stands for. *)
Definition names_of (flds : fields_arg) : list string :=
  match flds with Field s => [s] | Fields fs => fs end.

(** A sequence of [append_error] calls on a row. *)
Definition row_append_all
    (calls : list (error_def * fields_arg * option (list string)))
    (self : Row.t) : Row.t :=
  foldl (fun s c => Row.append_error c.1.1 c.1.2 c.2 s) self calls.

(** What a step from [s] to [s'] did about field [f]: the raw data are
    untouched, [cleaned] holds [cl] at [f], and the errors added by the
    step that name [f] are [nf]. *)
Definition delta (f : string) (s s' : Row.t) (cl : option value)
    (nf : list Row.error) : Prop :=
  Row.datadict s' = Row.datadict s
  /\ Row.cleaned s' !! f = cl
  /\ exists new, Row.errors_as_array s' = (Row.errors_as_array s ++ new)%list
                 /\ Row.naming f new = nf.

(** The step did nothing about [f]. *)
Definition keeps (f : string) (s s' : Row.t) : Prop :=
  delta f s s' (Row.cleaned s !! f) [].

(** What a [safe_*] method that returns a number does: the number the
    built-in [parse] gives for the raw value and no change, or no number
    and one more error, which names the field. *)
Definition safe_spec {A : Type} (parse : string -> option A)
    (fn : string -> Row.t -> option A * Row.t) : Prop :=
  forall g s,
    match fn g s with
    | (Some x, s') => s' = s /\ Row.datadict s !! g ≫= parse = Some x
    | (None, s') =>
      Row.datadict s' = Row.datadict s
      /\ Row.cleaned s' = Row.cleaned s
      /\ exists e, Row.errors_as_array s' = (Row.errors_as_array s ++ [e])%list
                   /\ Row.fields e = [g]
    end.

(** The value a numeric field of catalog [mf] is cleaned to: the built-in
    [float] of the raw string for a float or positive-float field, the
    built-in [int] for a positive-int field. *)
Definition parsed_as (mf : catalog) (float : string -> option PrimFloat.float)
    (int : string -> option Z) (f raw : string) (v : value) : Prop :=
  ((f ∈ POS_FLOAT_FIELDS mf \/ f ∈ FLOAT_FIELDS mf)
   /\ exists x, float raw = Some x /\ v = VFloat x)
  \/ (f ∈ POS_INT_FIELDS mf /\ exists n, int raw = Some n /\ v = VInt n).

(** The words [safe_bool] reads as true and as false. *)
Definition true_words : list string := ["true"; "t"; "yes"].
Definition false_words : list string := ["false"; "f"; "no"].

(** Field [g] has no value in the raw data: absent or the empty string. *)
Definition no_value (dd : gmap string string) (g : string) : Prop :=
  dd !! g = None \/ dd !! g = Some "".

(** A step that did not both write [cleaned] at [f] and add an error
    naming [f]. *)
Definition exclusive (f : string) (s s' : Row.t) : Prop :=
  exists cl nf, delta f s s' cl nf /\ (nf = [] \/ cl = Row.cleaned s !! f).

(** A step over the fields [G]: it leaves alone a field outside [G] and is
    exclusive about every field. *)
Definition step_ok (f : string) (G : list string) (s s' : Row.t) : Prop :=
  (f ∉ G -> keeps f s s') /\ exclusive f s s'.

(** A raw value the numeric loop counts as an error, for a group parsed by
    [parse] whose accepted numbers are those with [ok]. *)
Definition bad_number {A : Type} (parse : string -> option A) (ok : A -> bool)
    (dd : gmap string string) (g : string) : bool :=
  match dd !! g with
  | Some raw =>
    truthy raw && match parse raw with Some x => negb (ok x) | None => true end
  | None => false
  end.

Definition any_number {A : Type} (x : A) : bool := true.
Definition float_not_negative (x : PrimFloat.float) : bool :=
  negb (PrimFloat.ltb x PrimFloat.zero).
Definition int_not_negative (n : Z) : bool := negb (n <? 0).

(** A field the raw data have whose value does not read as a boolean (the
    empty string included). *)
Definition not_boolean (dd : gmap string string) (g : string) : bool :=
  match dd !! g with
  | Some raw => negb (bool_decide (lower raw ∈ (true_words ++ false_words)%list))
  | None => false
  end.



(** A step that changed nothing of the row but its errors, which it only
    extended, and its cleaned dict, from which it removed no key. *)
Definition grows (s s' : Row.t) : Prop :=
  Row.datadict s' = Row.datadict s
  /\ Row.idx s' = Row.idx s
  /\ Row.finished s' = Row.finished s
  /\ Row.status s' = Row.status s
  /\ (exists new, Row.errors_as_array s' = (Row.errors_as_array s ++ new)%list)
  /\ dom (Row.cleaned s) ⊆ dom (Row.cleaned s').

(** Every field the stored errors of a row name is a key of its raw data. *)
Definition error_fields_present (self : Row.t) : Prop :=
  forall e f, e ∈ Row.errors_as_array self -> f ∈ Row.fields e ->
              is_Some (Row.datadict self !! f).

(** The fields the numeric, boolean and string groups of a catalog declare. *)
Definition keyed_fields (mf : catalog) : list string :=
  (POS_FLOAT_FIELDS mf ++ FLOAT_FIELDS mf ++ POS_INT_FIELDS mf
   ++ BOOLEAN_FIELDS mf ++ STRING_FIELDS mf)%list.

(** What a step does to a row, read off the raw data: the entries it
    writes to [cleaned], in order, and the error records it appends. *)
Definition effect : Type := list (string * value) * list Row.error.

Definition no_effect : effect := ([], []).
Definition writes (k : string) (v : value) : effect := ([(k, v)], []).
Definition reports (err : error_def) (f : string) : effect :=
  ([], [Row.error_of err [f] None]).

Definition effect_seq (e1 e2 : effect) : effect :=
  ((e1.1 ++ e2.1)%list, (e1.2 ++ e2.2)%list).

(** The effects of the fields of a loop, one after the other. *)
Definition loop_effect (eff : string -> effect) (l : list string) : effect :=
  foldl (fun acc g => effect_seq acc (eff g)) no_effect l.

Definition insert_all (m : gmap string value) (kvs : list (string * value))
    : gmap string value :=
  foldl (fun acc kv => <[kv.1 := kv.2]> acc) m kvs.

(** The step from [s] to [s'] had the effect [e]. *)
Definition acts (s s' : Row.t) (e : effect) : Prop :=
  Row.datadict s' = Row.datadict s
  /\ Row.cleaned s' = insert_all (Row.cleaned s) e.1
  /\ Row.errors_as_array s' = (Row.errors_as_array s ++ e.2)%list.

(** The effect of a numeric field's turn, for a group parsed by [parse]
    whose accepted numbers are those with [ok]. *)
Definition number_effect {A : Type} (inj : A -> value)
    (parse : string -> option A) (ok : A -> bool)
    (parse_error range_error : error_def)
    (dd : gmap string string) (g : string) : effect :=
  match dd !! g with
  | Some raw =>
    if truthy raw
    then match parse raw with
         | None => reports parse_error g
         | Some x => if ok x then writes g (inj x) else reports range_error g
         end
    else no_effect
  | None => no_effect
  end.

Definition boolean_effect (E : errors.table) (dd : gmap string string)
    (g : string) : effect :=
  match dd !! g with
  | Some raw =>
    let v := lower raw in
    if String.eqb v "" then no_effect
    else if String.eqb v "true" || String.eqb v "t" || String.eqb v "yes"
    then writes g (VBool true)
    else if String.eqb v "false" || String.eqb v "f" || String.eqb v "no"
    then writes g (VBool false)
    else reports (errors.BOOL_ERROR E) g
  | None => no_effect
  end.

Definition string_effect (E : errors.table) (dd : gmap string string)
    (g : string) : effect :=
  match dd !! g with
  | Some val =>
    if truthy val
    then if 255 <? Z.of_nat (String.length val)
         then reports (errors.STRING_TOO_LONG E) g
         else writes g (VStr val)
    else no_effect
  | None => no_effect
  end.

Definition date_effect (E : errors.table) (mf : catalog)
    (dd : gmap string string) (g : string) : effect :=
  match dd !! g with
  | Some val =>
    if truthy val
    then match datetime.strptime_Ymd val with
         | Some d => writes (DATE_PLANTED mf) (VDate d)
         | None => reports (errors.INVALID_DATE E) (DATE_PLANTED mf)
         end
    else no_effect
  | None => no_effect
  end.

(** The effect of a pass of the four validators on a row with raw data
    [dd]. *)
Definition pass_effect (E : errors.table) (mf : catalog)
    (float : string -> option PrimFloat.float) (int : string -> option Z)
    (dd : gmap string string) : effect :=
  effect_seq
    (loop_effect (number_effect VFloat float float_not_negative
                    (errors.FLOAT_ERROR E) (errors.POS_FLOAT_ERROR E) dd)
       (POS_FLOAT_FIELDS mf))
    (effect_seq
       (loop_effect (number_effect VFloat float any_number
                       (errors.FLOAT_ERROR E) (errors.FLOAT_ERROR E) dd)
          (FLOAT_FIELDS mf))
       (effect_seq
          (loop_effect (number_effect VInt int int_not_negative
                          (errors.INT_ERROR E) (errors.POS_INT_ERROR E) dd)
             (POS_INT_FIELDS mf))
          (effect_seq
             (loop_effect (boolean_effect E dd) (BOOLEAN_FIELDS mf))
             (effect_seq
                (loop_effect (string_effect E dd) (STRING_FIELDS mf))
                (loop_effect (date_effect E mf dd) (DATE_FIELDS mf)))))).

(** * Properties *)

(** ** The event: status labels *)

Lemma status_summary_of_status (self : Ev.t) (s : Z) :
  Ev.status self = s ->
  Ev.status_summary self =
    (if s =? 1 then "Not Yet Started"
     else if s =? 2 then "Verifying"
     else if s =? 3 then "Verification Complete"
     else if s =? 4 then "Creating Trees"
     else if s =? 6 then "Invalid File Structure"
     else "Finished").
Proof. intros <-. reflexivity. Qed.

(** C10: [status_summary] is a total function of the integer status.  The
    five states other than FinishedCreating have five labels of their own,
    all different from each other and from "Finished"; FinishedCreating
    and every integer that is none of the six constants give "Finished",
    and nothing else does. *)
Theorem status_summary_labels (self : Ev.t) (s : Z) :
  let at_status := Ev.status_summary (Ev.set_status s self) in
  Ev.status_summary (Ev.set_status Ev.PENDING_VERIFICATION self) = "Not Yet Started"
  /\ Ev.status_summary (Ev.set_status Ev.VERIFIYING self) = "Verifying"
  /\ Ev.status_summary (Ev.set_status Ev.FINISHED_VERIFICATION self) = "Verification Complete"
  /\ Ev.status_summary (Ev.set_status Ev.CREATING self) = "Creating Trees"
  /\ Ev.status_summary (Ev.set_status Ev.FAILED_FILE_VERIFICATION self) = "Invalid File Structure"
  /\ Ev.status_summary (Ev.set_status Ev.FINISHED_CREATING self) = "Finished"
  /\ NoDup ["Not Yet Started"; "Verifying"; "Verification Complete";
            "Creating Trees"; "Invalid File Structure"; "Finished"]
  /\ (at_status = "Finished" <->
      s ∉ [Ev.PENDING_VERIFICATION; Ev.VERIFIYING; Ev.FINISHED_VERIFICATION;
           Ev.CREATING; Ev.FAILED_FILE_VERIFICATION]).
Proof.
  cbv zeta. repeat split; try reflexivity.
  - apply (bool_decide_unpack _). vm_compute. reflexivity.
  - rewrite (status_summary_of_status _ s) by reflexivity.
    intros H Hin.
    repeat (apply elem_of_cons in Hin as [-> | Hin]; [discriminate H |]).
    by apply elem_of_nil in Hin.
  - intros Hnot. rewrite (status_summary_of_status _ s) by reflexivity.
    repeat
      (match goal with
       | |- context [?a =? ?b] =>
         destruct (Z.eqb_spec a b) as [-> | _];
         [exfalso; apply Hnot; unfold Ev.PENDING_VERIFICATION, Ev.VERIFIYING,
            Ev.FINISHED_VERIFICATION, Ev.CREATING, Ev.FAILED_FILE_VERIFICATION;
          set_solver |]
       end).
    reflexivity.
Qed.

(** ** The event: the error list *)

Lemma ev_append_error_as_array err d (self : Ev.t) :
  Ev.errors_as_array (Ev.append_error err d self)
  = (Ev.errors_as_array self ++ [Ev.error_of err d])%list.
Proof.
  destruct err as [[c m] f]. unfold Ev.append_error, Ev.errors_as_array.
  destruct (Ev.errors self) eqn:He; simpl; rewrite ?He; reflexivity.
Qed.

Lemma ev_append_error_status err d (self : Ev.t) :
  Ev.status (Ev.append_error err d self) = Ev.status self
  /\ Ev.saves (Ev.append_error err d self) = Ev.saves self.
Proof.
  destruct err as [[c m] f]. unfold Ev.append_error.
  destruct (Ev.errors self); split; reflexivity.
Qed.

Lemma ev_append_all_as_array calls (self : Ev.t) :
  Ev.errors_as_array (ev_append_all calls self)
  = (Ev.errors_as_array self ++ map (fun c => Ev.error_of c.1 c.2) calls)%list.
Proof.
  revert self. induction calls as [| c calls IH]; intros self; simpl.
  - by rewrite app_nil_r.
  - unfold ev_append_all in *. simpl. rewrite IH, ev_append_error_as_array.
    by rewrite <- app_assoc.
Qed.

(** ** The event: the structural check of the file *)

(** C5: on an empty row source [_validate_main_file] returns false, sets
    the status to FailedFileVerification (and saves), and appends exactly
    one EmptyFile error to the event's errors. *)
Theorem validate_main_file_empty (E : errors.table) (fieldsource : gset string)
    (validate_custom_fields : gset string -> option error_def) (self : Ev.t) :
  let r := Ev._validate_main_file E [] fieldsource validate_custom_fields self in
  r.1 = false
  /\ Ev.status r.2 = Ev.FAILED_FILE_VERIFICATION
  /\ Ev.saves r.2 = S (Ev.saves self)
  /\ Ev.errors_as_array r.2
     = (Ev.errors_as_array self ++ [Ev.error_of (errors.EMPTY_FILE E) None])%list.
Proof.
  cbv zeta. unfold Ev._validate_main_file. simpl.
  repeat split.
  - f_equal. apply ev_append_error_status.
  - exact (ev_append_error_as_array _ _ self).
Qed.

Lemma strict_subset_difference (expected observed : gset string) :
  expected ⊂ observed -> elements (observed ∖ expected) <> [].
Proof.
  intros [_ Hnot] Hnil. apply Hnot. intros x Hx.
  destruct (decide (x ∈ expected)) as [Hin | Hout]; [exact Hin |].
  assert (x ∈ elements (observed ∖ expected)) as Hel
    by (apply elem_of_elements; set_solver).
  rewrite Hnil in Hel. by apply elem_of_nil in Hel.
Qed.

(** C1, as stated, fails: a first row with the extra column "nickname" and
    no custom error moves a pending event to FailedFileVerification. *)
Lemma validate_main_file_extra_fields_fails_event :
  ({["point x"; "point y"]} : gset string)
    ⊂ dom (list_to_map [("point x", "1"); ("point y", "2"); ("nickname", "oak")]
            : gmap string string)
  /\ sample.no_custom_error
       (dom (list_to_map [("point x", "1"); ("point y", "2"); ("nickname", "oak")]
              : gmap string string)) = None
  /\ Ev.status (Ev.init "trees.csv") = Ev.PENDING_VERIFICATION
  /\ Ev.status
       (Ev._validate_main_file errors.spec_table
          [list_to_map [("point x", "1"); ("point y", "2"); ("nickname", "oak")]]
          {["point x"; "point y"]} sample.no_custom_error
          (Ev.init "trees.csv")).2
     = Ev.FAILED_FILE_VERIFICATION.
Proof.
  split; [apply (bool_decide_unpack _); vm_compute; reflexivity |].
  split; [reflexivity |]. split; [reflexivity |].
  vm_compute. reflexivity.
Qed.

(** C1, amended: when the first row's fields are a strict superset of the
    expected ones and the custom validator reports nothing,
    [_validate_main_file] returns false, appends exactly one
    UnmatchedFields record whose payload lists the extra fields (each
    once), and sets the status to FailedFileVerification (and saves). *)
Theorem validate_main_file_extra_fields (E : errors.table)
    (row0 : gmap string string) (rest : list (gmap string string))
    (fieldsource : gset string)
    (validate_custom_fields : gset string -> option error_def) (self : Ev.t) :
  fieldsource ⊂ dom row0 ->
  validate_custom_fields (dom row0) = None ->
  let r := Ev._validate_main_file E (row0 :: rest) fieldsource
             validate_custom_fields self in
  let extra := elements (dom row0 ∖ fieldsource) in
  r.1 = false
  /\ Ev.status r.2 = Ev.FAILED_FILE_VERIFICATION
  /\ Ev.saves r.2 = S (Ev.saves self)
  /\ Ev.errors_as_array r.2
     = (Ev.errors_as_array self
        ++ [Ev.error_of (errors.UNMATCHED_FIELDS E) (Some extra)])%list
  /\ NoDup extra
  /\ (forall x, x ∈ extra <-> x ∈ dom row0 /\ x ∉ fieldsource).
Proof.
  intros Hsub Hcustom. cbv zeta. unfold Ev._validate_main_file.
  rewrite Hcustom.
  pose proof (strict_subset_difference _ _ Hsub) as Hne.
  destruct (elements (dom row0 ∖ fieldsource)) as [| x0 extra] eqn:Hel;
    [done |].
  simpl. rewrite <- Hel. clear Hel Hne Hsub.
  split; [reflexivity |]. split; [reflexivity |].
  split; [f_equal; apply ev_append_error_status |].
  split; [apply ev_append_error_as_array |].
  split; [apply NoDup_elements |].
  intros x. rewrite elem_of_elements, elem_of_difference. reflexivity.
Qed.

Lemma validate_main_file_extra_fields_witness :
  (Ev._validate_main_file errors.spec_table
     [list_to_map [("point x", "1"); ("point y", "2"); ("nickname", "oak")]]
     {["point x"; "point y"]} sample.no_custom_error
     (Ev.init "trees.csv")).1 = false
  /\ Ev.errors_as_array
       (Ev._validate_main_file errors.spec_table
          [list_to_map [("point x", "1"); ("point y", "2"); ("nickname", "oak")]]
          {["point x"; "point y"]} sample.no_custom_error
          (Ev.init "trees.csv")).2
     = [Ev.error_of (errors.UNMATCHED_FIELDS errors.spec_table)
          (Some ["nickname"])].
Proof.
  destruct (validate_main_file_extra_fields errors.spec_table
              (list_to_map [("point x", "1"); ("point y", "2"); ("nickname", "oak")])
              [] {["point x"; "point y"]} sample.no_custom_error
              (Ev.init "trees.csv")) as (Hret & _ & _ & Herr & _).
  - apply (bool_decide_unpack _). vm_compute. reflexivity.
  - reflexivity.
  - split; [exact Hret |]. rewrite Herr. vm_compute. reflexivity.
Defined.

(** ** The row: the error list *)

Lemma row_append_error_as_array err flds d (self : Row.t) :
  Row.errors_as_array (Row.append_error err flds d self)
  = (Row.errors_as_array self ++ [Row.error_of err (names_of flds) d])%list.
Proof.
  destruct err as [[c m] f].
  unfold Row.append_error, Row.errors_as_array, Row.loads_errors.
  destruct (Row.errors self) eqn:He; simpl; rewrite ?He; reflexivity.
Qed.

Lemma row_append_error_data err flds d (self : Row.t) :
  Row.datadict (Row.append_error err flds d self) = Row.datadict self
  /\ Row.cleaned (Row.append_error err flds d self) = Row.cleaned self.
Proof.
  destruct err as [[c m] f]. unfold Row.append_error.
  destruct (Row.errors self); split; reflexivity.
Qed.

Lemma row_append_all_as_array calls (self : Row.t) :
  Row.errors_as_array (row_append_all calls self)
  = (Row.errors_as_array self
     ++ map (fun c => Row.error_of c.1.1 (names_of c.1.2) c.2) calls)%list.
Proof.
  revert self. induction calls as [| c calls IH]; intros self.
  - simpl. by rewrite app_nil_r.
  - unfold row_append_all in *. simpl.
    rewrite IH, row_append_error_as_array. by rewrite <- app_assoc.
Qed.

(** C8: after any sequence of [append_error] calls, on an event as on a
    row, one more call makes [errors_as_array] exactly one element longer:
    the list it gave before, unchanged and in the same order, followed by
    the new record.  Hence a whole sequence of calls appends its records
    in call order. *)
Theorem append_error_appends_one
    (ev : Ev.t) (ev_calls : list (error_def * option (list string)))
    (err : error_def) (d : option (list string))
    (row : Row.t)
    (row_calls : list (error_def * fields_arg * option (list string)))
    (flds : fields_arg) :
  let ev' := ev_append_all ev_calls ev in
  let row' := row_append_all row_calls row in
  Ev.errors_as_array (Ev.append_error err d ev')
    = (Ev.errors_as_array ev' ++ [Ev.error_of err d])%list
  /\ length (Ev.errors_as_array (Ev.append_error err d ev'))
     = S (length (Ev.errors_as_array ev'))
  /\ Ev.errors_as_array ev'
     = (Ev.errors_as_array ev
        ++ map (fun c => Ev.error_of c.1 c.2) ev_calls)%list
  /\ Row.errors_as_array (Row.append_error err flds d row')
     = (Row.errors_as_array row' ++ [Row.error_of err (names_of flds) d])%list
  /\ length (Row.errors_as_array (Row.append_error err flds d row'))
     = S (length (Row.errors_as_array row'))
  /\ Row.errors_as_array row'
     = (Row.errors_as_array row
        ++ map (fun c => Row.error_of c.1.1 (names_of c.1.2) c.2) row_calls)%list.
Proof.
  cbv zeta.
  rewrite ev_append_error_as_array, row_append_error_as_array.
  rewrite !length_app. simpl.
  repeat split; try lia.
  - apply ev_append_all_as_array.
  - apply row_append_all_as_array.
Qed.

(** ** The row: what a step does about one field *)

Lemma naming_app f (l1 l2 : list Row.error) :
  Row.naming f (l1 ++ l2) = (Row.naming f l1 ++ Row.naming f l2)%list.
Proof. apply filter_app. Qed.

Lemma naming_other f g (e : Row.error) :
  Row.fields e = [g] -> g <> f -> Row.naming f [e] = [].
Proof.
  intros Hf Hne. unfold Row.naming. rewrite filter_cons_False; [done |].
  rewrite Hf. intros Hin. apply list_elem_of_singleton in Hin. congruence.
Qed.

Lemma naming_self f (e : Row.error) :
  Row.fields e = [f] -> Row.naming f [e] = [e].
Proof.
  intros Hf. unfold Row.naming. rewrite filter_cons_True; [done |].
  rewrite Hf. by apply list_elem_of_singleton.
Qed.

Lemma delta_trans f s s1 s2 c1 n1 c2 n2 :
  delta f s s1 c1 n1 -> delta f s1 s2 c2 n2 ->
  delta f s s2 c2 (n1 ++ n2).
Proof.
  intros (Hd1 & _ & new1 & He1 & Hn1) (Hd2 & Hc2 & new2 & He2 & Hn2).
  split; [congruence |]. split; [exact Hc2 |].
  exists (new1 ++ new2)%list. split.
  - rewrite He2, He1. by rewrite <- app_assoc.
  - rewrite naming_app. congruence.
Qed.

Lemma keeps_refl f s : keeps f s s.
Proof.
  split; [done |]. split; [done |]. exists []. by rewrite app_nil_r.
Qed.

Lemma keeps_delta f s s1 s2 c n :
  keeps f s s1 -> delta f s1 s2 c n -> delta f s s2 c n.
Proof. intros H1 H2. exact (delta_trans _ _ _ _ _ _ _ _ H1 H2). Qed.

Lemma delta_keeps f s s1 s2 c n :
  delta f s s1 c n -> keeps f s1 s2 -> delta f s s2 c n.
Proof.
  intros H1 H2. pose proof H1 as (_ & Hc & _).
  unfold keeps in H2. rewrite Hc in H2.
  pose proof (delta_trans _ _ _ _ _ _ _ _ H1 H2) as H.
  by rewrite app_nil_r in H.
Qed.

Lemma keeps_trans f s s1 s2 : keeps f s s1 -> keeps f s1 s2 -> keeps f s s2.
Proof. intros H1 H2. exact (delta_keeps _ _ _ _ _ _ H1 H2). Qed.

Lemma keeps_set_cleaned f g v s : g <> f -> keeps f s (Row.set_cleaned g v s).
Proof.
  intros Hne. split; [done |]. split.
  - simpl. by rewrite lookup_insert_ne.
  - exists []. by rewrite app_nil_r.
Qed.

Lemma keeps_append_error f g err d s :
  g <> f -> keeps f s (Row.append_error err (Field g) d s).
Proof.
  intros Hne. pose proof (row_append_error_data err (Field g) d s) as [Hd Hc].
  split; [done |]. split; [by rewrite Hc |].
  eexists. split; [apply row_append_error_as_array |].
  by apply (naming_other f g).
Qed.

(** A loop whose body leaves [f] alone outside its own turn. *)
Section loops.
Variable f : string.
Variable body : bool * Row.t -> string -> bool * Row.t.
Hypothesis body_frame : forall st g, g <> f -> keeps f st.2 (body st g).2.

Lemma for_each_frame l h s :
  f ∉ l -> keeps f s (Row.for_each body l h s).2.
Proof.
  unfold Row.for_each. revert h s.
  induction l as [| g l IH]; intros h s Hnot; simpl.
  - apply keeps_refl.
  - apply not_elem_of_cons in Hnot as [Hne Hnot].
    destruct (body (h, s) g) as [h1 s1] eqn:Hb.
    eapply keeps_trans; [| apply IH; exact Hnot].
    specialize (body_frame (h, s) g (not_eq_sym Hne)).
    by rewrite Hb in body_frame.
Qed.

Lemma for_each_focus l h s :
  NoDup l -> f ∈ l ->
  exists st1, keeps f s st1.2
              /\ keeps f (body st1 f).2 (Row.for_each body l h s).2.
Proof.
  unfold Row.for_each. revert h s.
  induction l as [| g l IH]; intros h s Hnd Hin; [by apply elem_of_nil in Hin |].
  apply NoDup_cons in Hnd as [Hg Hnd]. simpl.
  destruct (decide (g = f)) as [-> | Hne].
  - exists (h, s). split; [apply keeps_refl |].
    destruct (body (h, s) f) as [h1 s1]. exact (for_each_frame l h1 s1 Hg).
  - apply elem_of_cons in Hin as [Heq | Hin]; [congruence |].
    destruct (body (h, s) g) as [h1 s1] eqn:Hb.
    destruct (IH h1 s1 Hnd Hin) as (st1 & Hk1 & Hk2).
    exists st1. split; [| exact Hk2].
    eapply keeps_trans; [| exact Hk1].
    specialize (body_frame (h, s) g Hne). by rewrite Hb in body_frame.
Qed.
End loops.

(** ** The row: numeric fields *)

Section numeric.
Variable E : errors.table.
Variable mf : catalog.
Variable float : string -> option PrimFloat.float.
Variable int : string -> option Z.

Lemma safe_float_spec : safe_spec float (Row.safe_float E float).
Proof.
  intros g s. unfold Row.safe_float.
  destruct (Row.datadict s !! g ≫= float) as [x |] eqn:Hp; [done |].
  pose proof (row_append_error_data (errors.FLOAT_ERROR E) (Field g) None s)
    as [Hd Hc].
  split; [done |]. split; [done |].
  eexists. split; [apply row_append_error_as_array | reflexivity].
Qed.

Lemma safe_int_spec : safe_spec int (Row.safe_int E int).
Proof.
  intros g s. unfold Row.safe_int.
  destruct (Row.datadict s !! g ≫= int) as [x |] eqn:Hp; [done |].
  pose proof (row_append_error_data (errors.INT_ERROR E) (Field g) None s)
    as [Hd Hc].
  split; [done |]. split; [done |].
  eexists. split; [apply row_append_error_as_array | reflexivity].
Qed.

Lemma safe_pos_float_spec : safe_spec float (Row.safe_pos_float E float).
Proof.
  intros g s. unfold Row.safe_pos_float.
  pose proof (safe_float_spec g s) as Hs.
  destruct (Row.safe_float E float g s) as [[x |] s1]; [| exact Hs].
  destruct Hs as [-> Hp].
  destruct (PrimFloat.ltb x PrimFloat.zero); [| done].
  pose proof (row_append_error_data (errors.POS_FLOAT_ERROR E) (Field g) None s)
    as [Hd Hc].
  split; [done |]. split; [done |].
  eexists. split; [apply row_append_error_as_array | reflexivity].
Qed.

Lemma safe_pos_int_spec : safe_spec int (Row.safe_pos_int E int).
Proof.
  intros g s. unfold Row.safe_pos_int.
  pose proof (safe_int_spec g s) as Hs.
  destruct (Row.safe_int E int g s) as [[n |] s1]; [| exact Hs].
  destruct Hs as [-> Hp].
  destruct (n <? 0); [| done].
  pose proof (row_append_error_data (errors.POS_INT_ERROR E) (Field g) None s)
    as [Hd Hc].
  split; [done |]. split; [done |].
  eexists. split; [apply row_append_error_as_array | reflexivity].
Qed.

Section cleanup.
Context {A : Type}.
Variable inj : A -> value.
Variable parse : string -> option A.
Variable fn : string -> Row.t -> option A * Row.t.
Hypothesis fn_spec : safe_spec parse fn.

Lemma cleanup_body_frame f st g :
  g <> f -> keeps f st.2 (Row.cleanup_body inj fn st g).2.
Proof.
  intros Hne. destruct st as [h s]. unfold Row.cleanup_body. simpl.
  destruct (Row.datadict s !! g) as [raw |]; [| apply keeps_refl].
  destruct (truthy raw); [| apply keeps_refl].
  pose proof (fn_spec g s) as Hs.
  destruct (fn g s) as [[x |] s1]; simpl.
  - destruct Hs as [-> _]. by apply keeps_set_cleaned.
  - destruct Hs as (Hd & Hc & e & He & Hf).
    split; [done |]. split; [by rewrite Hc |].
    exists [e]. split; [done |]. by apply (naming_other f g).
Qed.

(** The turn of field [f] itself. *)
Lemma cleanup_body_at f h s :
  exists cl nf,
    delta f s (Row.cleanup_body inj fn (h, s) f).2 cl nf
    /\ match Row.datadict s !! f with
       | None | Some EmptyString => cl = Row.cleaned s !! f /\ nf = []
       | Some raw =>
         (exists x, parse raw = Some x /\ cl = Some (inj x) /\ nf = [])
         \/ (cl = Row.cleaned s !! f /\ exists e, nf = [e])
       end.
Proof.
  unfold Row.cleanup_body.
  pose proof (fn_spec f s) as Hs.
  destruct (Row.datadict s !! f) as [[| a raw] |] eqn:Hraw; simpl.
  - exists (Row.cleaned s !! f), []. split; [apply keeps_refl | done].
  - destruct (fn f s) as [[x |] s1]; simpl.
    + destruct Hs as [-> Hp]. simpl in Hp.
      exists (Some (inj x)), []. split.
      * split; [done |]. split; [apply lookup_insert_eq |].
        exists []. by rewrite app_nil_r.
      * left. by exists x.
    + destruct Hs as (Hd & Hc & e & He & Hf).
      exists (Row.cleaned s !! f), [e]. split.
      * split; [done |]. split; [by rewrite Hc |].
        exists [e]. split; [done |]. by apply naming_self.
      * right. split; [done |]. by exists e.
  - exists (Row.cleaned s !! f), []. split; [apply keeps_refl | done].
Qed.

Lemma cleanup_frame f l s :
  f ∉ l -> keeps f s (Row.cleanup inj l fn s).2.
Proof.
  apply for_each_frame. intros st g. apply cleanup_body_frame.
Qed.

Lemma cleanup_field f l s :
  NoDup l -> f ∈ l ->
  exists cl nf,
    delta f s (Row.cleanup inj l fn s).2 cl nf
    /\ match Row.datadict s !! f with
       | None | Some EmptyString => cl = Row.cleaned s !! f /\ nf = []
       | Some raw =>
         (exists x, parse raw = Some x /\ cl = Some (inj x) /\ nf = [])
         \/ (cl = Row.cleaned s !! f /\ exists e, nf = [e])
       end.
Proof.
  intros Hnd Hin.
  destruct (for_each_focus f (Row.cleanup_body inj fn)
              (fun st g => cleanup_body_frame f st g) l false s Hnd Hin)
    as ([h1 s1] & Hk1 & Hk2).
  destruct (cleanup_body_at f h1 s1) as (cl & nf & Hd & Hcase).
  exists cl, nf. split.
  - eapply keeps_delta; [exact Hk1 |].
    eapply delta_keeps; [exact Hd | exact Hk2].
  - destruct Hk1 as (Hdata & Hcl & _). simpl in Hdata, Hcl.
    rewrite Hdata, Hcl in Hcase. exact Hcase.
Qed.
End cleanup.

Lemma validate_numeric_fields_state (s : Row.t) :
  (Row.validate_numeric_fields E mf float int s).2
  = (Row.cleanup VInt (POS_INT_FIELDS mf) (Row.safe_pos_int E int)
       (Row.cleanup VFloat (FLOAT_FIELDS mf) (Row.safe_float E float)
          (Row.cleanup VFloat (POS_FLOAT_FIELDS mf)
             (Row.safe_pos_float E float) s).2).2).2.
Proof.
  unfold Row.validate_numeric_fields.
  destruct (Row.cleanup VFloat (POS_FLOAT_FIELDS mf) _ s) as [a s1]; simpl.
  destruct (Row.cleanup VFloat (FLOAT_FIELDS mf) _ s1) as [b s2]; simpl.
  destruct (Row.cleanup VInt (POS_INT_FIELDS mf) _ s2) as [c s3].
  reflexivity.
Qed.

Lemma validate_numeric_fields_flag (s : Row.t) :
  (Row.validate_numeric_fields E mf float int s).1
  = (Row.cleanup VFloat (POS_FLOAT_FIELDS mf) (Row.safe_pos_float E float) s).1
    && (Row.cleanup VFloat (FLOAT_FIELDS mf) (Row.safe_float E float)
          (Row.cleanup VFloat (POS_FLOAT_FIELDS mf)
             (Row.safe_pos_float E float) s).2).1
    && (Row.cleanup VInt (POS_INT_FIELDS mf) (Row.safe_pos_int E int)
          (Row.cleanup VFloat (FLOAT_FIELDS mf) (Row.safe_float E float)
             (Row.cleanup VFloat (POS_FLOAT_FIELDS mf)
                (Row.safe_pos_float E float) s).2).2).1.
Proof.
  unfold Row.validate_numeric_fields.
  destruct (Row.cleanup VFloat (POS_FLOAT_FIELDS mf) _ s) as [a s1]; simpl.
  destruct (Row.cleanup VFloat (FLOAT_FIELDS mf) _ s1) as [b s2]; simpl.
  destruct (Row.cleanup VInt (POS_INT_FIELDS mf) _ s2) as [c s3].
  reflexivity.
Qed.
End numeric.

Lemma numeric_outcome E mf float int f s :
  NoDup (POS_FLOAT_FIELDS mf ++ FLOAT_FIELDS mf ++ POS_INT_FIELDS mf) ->
  f ∈ (POS_FLOAT_FIELDS mf ++ FLOAT_FIELDS mf ++ POS_INT_FIELDS mf)%list ->
  exists cl nf,
    delta f s (Row.validate_numeric_fields E mf float int s).2 cl nf
    /\ match Row.datadict s !! f with
       | None | Some EmptyString => cl = Row.cleaned s !! f /\ nf = []
       | Some raw =>
         (exists v, parsed_as mf float int f raw v /\ cl = Some v /\ nf = [])
         \/ (cl = Row.cleaned s !! f /\ exists e, nf = [e])
       end.
Proof.
  intros Hnd Hin. rewrite validate_numeric_fields_state.
  apply NoDup_app in Hnd as (Hnd1 & Hdisj1 & Hnd23).
  apply NoDup_app in Hnd23 as (Hnd2 & Hdisj2 & Hnd3).
  set (s1 := (Row.cleanup VFloat (POS_FLOAT_FIELDS mf)
                (Row.safe_pos_float E float) s).2).
  set (s2 := (Row.cleanup VFloat (FLOAT_FIELDS mf)
                (Row.safe_float E float) s1).2).
  set (s3 := (Row.cleanup VInt (POS_INT_FIELDS mf)
                (Row.safe_pos_int E int) s2).2).
  pose proof (safe_pos_float_spec E float) as Spf.
  pose proof (safe_float_spec E float) as Sf.
  pose proof (safe_pos_int_spec E int) as Spi.
  apply elem_of_app in Hin as [Hin1 | Hin23].
  - (* a positive-float field *)
    pose proof (Hdisj1 f Hin1) as Hnot23.
    apply not_elem_of_app in Hnot23 as [Hnot2 Hnot3].
    destruct (cleanup_field VFloat float _ Spf f _ s Hnd1 Hin1)
      as (cl & nf & Hd & Hcase).
    pose proof (cleanup_frame VFloat float _ Sf f _ s1 Hnot2) as Hk2.
    pose proof (cleanup_frame VInt int _ Spi f _ s2 Hnot3) as Hk3.
    exists cl, nf. split.
    + eapply delta_keeps; [| exact Hk3]. eapply delta_keeps; [exact Hd | exact Hk2].
    + destruct (Row.datadict s !! f) as [[| a raw] |]; [done | | done].
      destruct Hcase as [(x & Hp & -> & ->) | Hcase]; [| by right].
      left. exists (VFloat x). split; [| done]. left. split; [by left | by exists x].
  - apply elem_of_app in Hin23 as [Hin2 | Hin3].
    + (* a float field *)
      assert (f ∉ POS_FLOAT_FIELDS mf) as Hnot1
        by (intros H1; apply (Hdisj1 f H1); apply elem_of_app; by left).
      pose proof (Hdisj2 f Hin2) as Hnot3.
      pose proof (cleanup_frame VFloat float _ Spf f _ s Hnot1) as Hk1.
      destruct (cleanup_field VFloat float _ Sf f _ s1 Hnd2 Hin2)
        as (cl & nf & Hd & Hcase).
      pose proof (cleanup_frame VInt int _ Spi f _ s2 Hnot3) as Hk3.
      exists cl, nf. split.
      * eapply delta_keeps; [| exact Hk3]. eapply keeps_delta; [exact Hk1 | exact Hd].
      * subst s1 s2 s3.
        pose proof Hk1 as (Hd1 & Hc1 & _). rewrite Hd1, Hc1 in Hcase.
        destruct (Row.datadict s !! f) as [[| a raw] |]; [done | | done].
        destruct Hcase as [(x & Hp & -> & ->) | Hcase]; [| by right].
        left. exists (VFloat x). split; [| done].
        left. split; [by right | by exists x].
    + (* a positive-int field *)
      assert (f ∉ POS_FLOAT_FIELDS mf) as Hnot1
        by (intros H1; apply (Hdisj1 f H1); apply elem_of_app; by right).
      assert (f ∉ FLOAT_FIELDS mf) as Hnot2
        by (intros H2; by apply (Hdisj2 f H2)).
      pose proof (cleanup_frame VFloat float _ Spf f _ s Hnot1) as Hk1.
      pose proof (cleanup_frame VFloat float _ Sf f _ s1 Hnot2) as Hk2.
      destruct (cleanup_field VInt int _ Spi f _ s2 Hnd3 Hin3)
        as (cl & nf & Hd & Hcase).
      exists cl, nf. split.
      * eapply keeps_delta; [exact Hk1 |]. eapply keeps_delta; [exact Hk2 | exact Hd].
      * subst s1 s2 s3.
        pose proof Hk2 as (Hd2 & Hc2 & _). rewrite Hd2, Hc2 in Hcase.
        pose proof Hk1 as (Hd1 & Hc1 & _). rewrite Hd1, Hc1 in Hcase.
        destruct (Row.datadict s !! f) as [[| a raw] |]; [done | | done].
        destruct Hcase as [(n & Hp & -> & ->) | Hcase]; [| by right].
        left. exists (VInt n). split; [| done]. right. split; [done | by exists n].
Qed.

(** C4: let [f] be a declared numeric field, the three numeric groups of
    the catalog naming each field once, and let [cleaned] have no entry
    for [f] yet.  After [validate_numeric_fields], if the raw value is
    absent or empty nothing happened to [f] (no error naming it, no
    cleaned entry); otherwise either [cleaned] holds at [f] the number the
    built-in parsed and no error naming [f] was added, or [cleaned] has no
    entry for [f] and exactly one error naming [f] was added. *)
Theorem validate_numeric_fields_field (E : errors.table) (mf : catalog)
    (float : string -> option PrimFloat.float) (int : string -> option Z)
    (self : Row.t) (f : string) :
  NoDup (POS_FLOAT_FIELDS mf ++ FLOAT_FIELDS mf ++ POS_INT_FIELDS mf) ->
  f ∈ (POS_FLOAT_FIELDS mf ++ FLOAT_FIELDS mf ++ POS_INT_FIELDS mf)%list ->
  Row.cleaned self !! f = None ->
  let self' := (Row.validate_numeric_fields E mf float int self).2 in
  exists new,
    Row.errors_as_array self' = (Row.errors_as_array self ++ new)%list
    /\ match Row.datadict self !! f with
       | None | Some EmptyString =>
         Row.cleaned self' !! f = None /\ Row.naming f new = []
       | Some raw =>
         (exists v, parsed_as mf float int f raw v
                    /\ Row.cleaned self' !! f = Some v
                    /\ Row.naming f new = [])
         \/ (Row.cleaned self' !! f = None /\ exists e, Row.naming f new = [e])
       end.
Proof.
  intros Hnd Hin Hfresh. cbv zeta.
  destruct (numeric_outcome E mf float int f self Hnd Hin)
    as (cl & nf & (_ & Hcl & new & Herr & Hnf) & Hcase).
  exists new. split; [exact Herr |].
  rewrite Hcl, Hnf, Hfresh in *.
  destruct (Row.datadict self !! f) as [[| a raw] |]; [done | | done].
  destruct Hcase as [(v & Hp & -> & ->) | (-> & e & ->)].
  - left. by exists v.
  - right. split; [done | by exists e].
Qed.

Lemma validate_numeric_fields_field_witness :
  exists new,
    Row.errors_as_array
      (Row.validate_numeric_fields errors.spec_table sample.trees
         sample.float sample.int (sample.row [("diameter", "12")])).2
    = (Row.errors_as_array (sample.row [("diameter", "12")]) ++ new)%list
    /\ ((exists v, parsed_as sample.trees sample.float sample.int
                    "diameter" "12" v
                  /\ Row.cleaned
                       (Row.validate_numeric_fields errors.spec_table
                          sample.trees sample.float sample.int
                          (sample.row [("diameter", "12")])).2
                     !! "diameter" = Some v
                  /\ Row.naming "diameter" new = [])
        \/ (Row.cleaned
              (Row.validate_numeric_fields errors.spec_table sample.trees
                 sample.float sample.int (sample.row [("diameter", "12")])).2
            !! "diameter" = None
            /\ exists e, Row.naming "diameter" new = [e])).
Proof.
  apply (validate_numeric_fields_field errors.spec_table sample.trees
           sample.float sample.int (sample.row [("diameter", "12")])
           "diameter").
  - apply (bool_decide_unpack _). vm_compute. reflexivity.
  - apply (bool_decide_unpack _). vm_compute. reflexivity.
  - vm_compute. reflexivity.
Defined.

(** ** The row: boolean fields *)

Lemma lower_empty raw : lower raw = "" <-> raw = "".
Proof. destruct raw; simpl; split; congruence. Qed.

(** Membership of a known word in one of the two word lists. *)
Ltac word_cases H :=
  unfold true_words, false_words in H;
  repeat (apply elem_of_cons in H as [H | H]; [try congruence |]);
  try (by apply elem_of_nil in H).

(** One clause [condition -> outcome] of a boolean field's case analysis:
    the outcome holds outright, or the condition contradicts what is known
    about the lowered raw value. *)
Ltac bool_clause :=
  first
    [ by intros _
    | by intros _ _ _
    | let H := fresh in intros H; word_cases H; fail
    | let H := fresh in intros H; subst; simpl in *; congruence
    | let H := fresh in
      solve [ intros _ H _; exfalso; apply H; unfold true_words;
              repeat (apply elem_of_cons; first [ by left | right ]) ]
    | let H := fresh in
      solve [ intros _ _ H; exfalso; apply H; unfold false_words;
              repeat (apply elem_of_cons; first [ by left | right ]) ] ].

Lemma boolean_body_at E f h s raw :
  Row.datadict s !! f = Some raw ->
  exists cl nf,
    delta f s (Row.boolean_body E (h, s) f).2 cl nf
    /\ (lower raw ∈ true_words -> cl = Some (VBool true) /\ nf = [])
    /\ (lower raw ∈ false_words -> cl = Some (VBool false) /\ nf = [])
    /\ (raw = "" -> cl = Row.cleaned s !! f /\ nf = [])
    /\ (raw <> "" -> lower raw ∉ true_words -> lower raw ∉ false_words ->
        cl = Row.cleaned s !! f
        /\ nf = [Row.error_of (errors.BOOL_ERROR E) [f] None]).
Proof.
  intros Hraw. unfold Row.boolean_body, Row.safe_bool. rewrite Hraw. simpl.
  destruct (String.eqb_spec (lower raw) "") as [H0 | H0].
  { exists (Row.cleaned s !! f), []. split; [apply keeps_refl |].
    apply lower_empty in H0 as ->. simpl.
    split; [bool_clause |]. split; [bool_clause |]. split; bool_clause. }
  assert (raw <> "") as Hne by (intros ->; by apply H0).
  destruct (String.eqb_spec (lower raw) "true") as [H1 | H1];
  [| destruct (String.eqb_spec (lower raw) "t") as [H2 | H2];
     [| destruct (String.eqb_spec (lower raw) "yes") as [H3 | H3] ] ];
  simpl.
  1-3: exists (Some (VBool true)), []; split;
       [ split; [done |]; split; [apply lookup_insert_eq |];
         exists []; by rewrite app_nil_r |];
       split; [bool_clause |]; split; [bool_clause |]; split; bool_clause.
  destruct (String.eqb_spec (lower raw) "false") as [H4 | H4];
  [| destruct (String.eqb_spec (lower raw) "f") as [H5 | H5];
     [| destruct (String.eqb_spec (lower raw) "no") as [H6 | H6] ] ];
  simpl.
  1-3: exists (Some (VBool false)), []; split;
       [ split; [done |]; split; [apply lookup_insert_eq |];
         exists []; by rewrite app_nil_r |];
       split; [bool_clause |]; split; [bool_clause |]; split; bool_clause.
  pose proof (row_append_error_data (errors.BOOL_ERROR E) (Field f) None s)
    as [Hd Hc].
  exists (Row.cleaned s !! f), [Row.error_of (errors.BOOL_ERROR E) [f] None].
  split.
  { split; [done |]. split; [by rewrite Hc |].
    eexists. split; [apply row_append_error_as_array |].
    by apply naming_self. }
  split; [bool_clause |]. split; [bool_clause |]. split; bool_clause.
Qed.

Lemma boolean_body_frame E f st g :
  g <> f -> keeps f st.2 (Row.boolean_body E st g).2.
Proof.
  intros Hne. destruct st as [h s]. unfold Row.boolean_body, Row.safe_bool.
  simpl. destruct (Row.datadict s !! g) as [raw |]; [| apply keeps_refl].
  simpl.
  destruct (String.eqb (lower raw) ""); [apply keeps_refl |].
  destruct (_ || _); [by apply keeps_set_cleaned |].
  destruct (_ || _); [by apply keeps_set_cleaned |].
  by apply keeps_append_error.
Qed.

(** C6: let [f] be a declared boolean field (listed once) that the raw
    data have, with no cleaned entry yet.  After
    [validate_boolean_fields]: a raw value that lowers to "true", "t" or
    "yes" is cleaned to true, one that lowers to "false", "f" or "no" to
    false, in both cases with no error naming [f]; the empty string leaves
    no cleaned entry and no error; any other raw value leaves no cleaned
    entry and adds exactly one error naming [f], the BoolParseError record
    tagged to [f]. *)
Theorem validate_boolean_fields_field (E : errors.table) (mf : catalog)
    (self : Row.t) (f raw : string) :
  NoDup (BOOLEAN_FIELDS mf) ->
  f ∈ BOOLEAN_FIELDS mf ->
  Row.datadict self !! f = Some raw ->
  Row.cleaned self !! f = None ->
  let self' := (Row.validate_boolean_fields E mf self).2 in
  exists new,
    Row.errors_as_array self' = (Row.errors_as_array self ++ new)%list
    /\ (lower raw ∈ true_words ->
        Row.cleaned self' !! f = Some (VBool true) /\ Row.naming f new = [])
    /\ (lower raw ∈ false_words ->
        Row.cleaned self' !! f = Some (VBool false) /\ Row.naming f new = [])
    /\ (raw = "" -> Row.cleaned self' !! f = None /\ Row.naming f new = [])
    /\ (raw <> "" -> lower raw ∉ true_words -> lower raw ∉ false_words ->
        Row.cleaned self' !! f = None
        /\ Row.naming f new = [Row.error_of (errors.BOOL_ERROR E) [f] None]).
Proof.
  intros Hnd Hin Hraw Hfresh. cbv zeta. unfold Row.validate_boolean_fields.
  destruct (for_each_focus f (Row.boolean_body E)
              (fun st g => boolean_body_frame E f st g)
              (BOOLEAN_FIELDS mf) false self Hnd Hin)
    as ([h1 s1] & Hk1 & Hk2).
  pose proof Hk1 as (Hd1 & Hc1 & _). simpl in Hd1, Hc1.
  rewrite <- Hd1 in Hraw.
  destruct (boolean_body_at E f h1 s1 raw Hraw)
    as (cl & nf & Hd & Ht & Hf & He & Ho).
  rewrite Hc1, Hfresh in He, Ho.
  pose proof (keeps_delta _ _ _ _ _ _ Hk1 (delta_keeps _ _ _ _ _ _ Hd Hk2))
    as (_ & Hcl & new & Herr & Hnf).
  exists new. split; [exact Herr |]. rewrite Hcl, Hnf.
  split; [exact Ht |]. split; [exact Hf |]. split; [exact He | exact Ho].
Qed.

Lemma validate_boolean_fields_field_witness :
  exists new,
    Row.errors_as_array
      (Row.validate_boolean_fields errors.spec_table sample.trees
         (sample.row [("read only", "YES")])).2
    = (Row.errors_as_array (sample.row [("read only", "YES")]) ++ new)%list
    /\ Row.cleaned
         (Row.validate_boolean_fields errors.spec_table sample.trees
            (sample.row [("read only", "YES")])).2
       !! "read only" = Some (VBool true)
    /\ Row.naming "read only" new = [].
Proof.
  destruct (validate_boolean_fields_field errors.spec_table sample.trees
              (sample.row [("read only", "YES")]) "read only" "YES")
    as (new & Herr & Ht & _).
  - apply (bool_decide_unpack _). vm_compute. reflexivity.
  - apply (bool_decide_unpack _). vm_compute. reflexivity.
  - vm_compute. reflexivity.
  - vm_compute. reflexivity.
  - exists new. split; [exact Herr |]. apply Ht.
    apply (bool_decide_unpack _). vm_compute. reflexivity.
Defined.

(** ** The row: date fields *)

Lemma date_body_skip E mf h s g :
  no_value (Row.datadict s) g -> Row.date_body E mf (h, s) g = (h, s).
Proof. intros [Hg | Hg]; unfold Row.date_body; by rewrite Hg. Qed.

Lemma date_body_data E mf st g :
  Row.datadict (Row.date_body E mf st g).2 = Row.datadict st.2.
Proof.
  destruct st as [h s]. unfold Row.date_body.
  destruct (Row.datadict s !! g) as [raw |]; [| done].
  destruct (truthy raw); [| done].
  destruct (datetime.strptime_Ymd raw); [done |].
  apply row_append_error_data.
Qed.

Lemma date_loop_skip E mf l h s :
  (forall g, g ∈ l -> no_value (Row.datadict s) g) ->
  Row.for_each (Row.date_body E mf) l h s = (h, s).
Proof.
  unfold Row.for_each. induction l as [| g l IH]; intros Hall; [done |].
  cbn [foldl]. rewrite date_body_skip by (apply Hall; apply elem_of_cons; by left).
  apply IH. intros g' Hg'. apply Hall. apply elem_of_cons. by right.
Qed.

Lemma date_loop_single E mf l f h s :
  NoDup l -> f ∈ l ->
  (forall g, g ∈ l -> g <> f -> no_value (Row.datadict s) g) ->
  Row.for_each (Row.date_body E mf) l h s = Row.date_body E mf (h, s) f.
Proof.
  unfold Row.for_each. revert h s.
  induction l as [| g l IH]; intros h s Hnd Hin Hall;
    [by apply elem_of_nil in Hin |].
  apply NoDup_cons in Hnd as [Hg Hnd]. cbn [foldl].
  destruct (decide (g = f)) as [-> | Hne].
  - pose proof (date_body_data E mf (h, s) f) as Hd. cbn [snd] in Hd.
    destruct (Row.date_body E mf (h, s) f) as [h1 s1]. simpl in Hd.
    apply (date_loop_skip E mf l h1 s1). intros g' Hg'. rewrite Hd.
    apply Hall; [apply elem_of_cons; by right |]. intros ->. by apply Hg.
  - apply elem_of_cons in Hin as [Heq | Hin]; [congruence |].
    rewrite date_body_skip
      by (apply Hall; [apply elem_of_cons; by left | exact Hne]).
    apply IH; [exact Hnd | exact Hin |].
    intros g' Hg'. apply Hall. apply elem_of_cons. by right.
Qed.

Lemma strptime_examples :
  datetime.strptime_Ymd "2020-03-15"
  = Some {| datetime.year := 2020; datetime.month := 3; datetime.day := 15 |}
  /\ datetime.strptime_Ymd "15/03/2020" = None
  /\ datetime.strptime_Ymd "2020-13-01" = None.
Proof. repeat split; vm_compute; reflexivity. Qed.

(** C7: let [f] be a date field with a non-empty raw value.  Its turn in
    the loop of [validate_date_fields] parses the value with the format
    YYYY-MM-DD: on success the date is written to [cleaned] under the
    canonical planted-date key and no error is added; on failure [cleaned]
    is left as it was and exactly one InvalidDate record, tagged to the
    canonical key, is added.  "2020-03-15" is the first case, with the
    date 15 March 2020; "15/03/2020" and "2020-13-01" are the second.
    When [f] is declared once and is the only date field of the row with a
    value, the whole pass is that one turn. *)
Theorem validate_date_fields_field (E : errors.table) (mf : catalog)
    (self : Row.t) (f raw : string) (has_errors : bool) :
  Row.datadict self !! f = Some raw ->
  raw <> "" ->
  let turn := Row.date_body E mf (has_errors, self) f in
  let invalid := Row.error_of (errors.INVALID_DATE E) [DATE_PLANTED mf] None in
  match datetime.strptime_Ymd raw with
  | Some d =>
    turn.1 = has_errors
    /\ Row.cleaned turn.2 !! DATE_PLANTED mf = Some (VDate d)
    /\ Row.errors_as_array turn.2 = Row.errors_as_array self
  | None =>
    turn.1 = true
    /\ Row.cleaned turn.2 = Row.cleaned self
    /\ Row.errors_as_array turn.2 = (Row.errors_as_array self ++ [invalid])%list
  end
  /\ (raw = "2020-03-15" ->
      Row.cleaned turn.2 !! DATE_PLANTED mf
      = Some (VDate {| datetime.year := 2020; datetime.month := 3;
                       datetime.day := 15 |})
      /\ Row.errors_as_array turn.2 = Row.errors_as_array self)
  /\ (raw = "15/03/2020" \/ raw = "2020-13-01" ->
      Row.cleaned turn.2 = Row.cleaned self
      /\ Row.errors_as_array turn.2 = (Row.errors_as_array self ++ [invalid])%list)
  /\ (NoDup (DATE_FIELDS mf) ->
      f ∈ DATE_FIELDS mf ->
      (forall g, g ∈ DATE_FIELDS mf -> g <> f ->
                 no_value (Row.datadict self) g) ->
      Row.validate_date_fields E mf self
      = Row.date_body E mf (false, self) f).
Proof.
  intros Hraw Hne. cbv zeta.
  assert (truthy raw = true) as Htr by (destruct raw; [done | reflexivity]).
  assert (Row.date_body E mf (has_errors, self) f
          = match datetime.strptime_Ymd raw with
            | Some d =>
              (has_errors, Row.set_cleaned (DATE_PLANTED mf) (VDate d) self)
            | None =>
              (true, Row.append_error (errors.INVALID_DATE E)
                       (Field (DATE_PLANTED mf)) None self)
            end) as ->
    by (unfold Row.date_body; by rewrite Hraw, Htr).
  destruct strptime_examples as (Hex1 & Hex2 & Hex3).
  split; [| split; [| split] ].
  - destruct (datetime.strptime_Ymd raw) as [d |]; simpl.
    + split; [done |]. split; [apply lookup_insert_eq | done].
    + split; [done |]. split; [apply row_append_error_data |].
      apply row_append_error_as_array.
  - intros ->. rewrite Hex1. simpl. split; [apply lookup_insert_eq | done].
  - intros [-> | ->]; rewrite ?Hex2, ?Hex3; simpl;
      (split; [apply row_append_error_data | apply row_append_error_as_array]).
  - intros Hnd Hin Hothers. unfold Row.validate_date_fields.
    exact (date_loop_single E mf _ f false self Hnd Hin Hothers).
Qed.

Lemma validate_date_fields_field_witness :
  Row.cleaned
    (Row.validate_date_fields errors.spec_table sample.trees
       (sample.row [("date planted", "2020-13-01")])).2
  = Row.cleaned (sample.row [("date planted", "2020-13-01")])
  /\ Row.errors_as_array
       (Row.validate_date_fields errors.spec_table sample.trees
          (sample.row [("date planted", "2020-13-01")])).2
     = [Row.error_of (errors.INVALID_DATE errors.spec_table)
          ["date planted"] None].
Proof.
  destruct (validate_date_fields_field errors.spec_table sample.trees
              (sample.row [("date planted", "2020-13-01")])
              "date planted" "2020-13-01" false)
    as (_ & _ & Hbad & Hpass).
  - vm_compute. reflexivity.
  - discriminate.
  - rewrite Hpass.
    + apply Hbad. by right.
    + apply (bool_decide_unpack _). vm_compute. reflexivity.
    + apply (bool_decide_unpack _). vm_compute. reflexivity.
    + intros g Hg Hne. apply list_elem_of_singleton in Hg. congruence.
Defined.

(** ** The row: what the validators return *)

Lemma string_body_flag E h s g :
  let st := Row.string_body E (h, s) g in
  (st.1 = h /\ Row.errors_as_array st.2 = Row.errors_as_array s)
  \/ (st.1 = true
      /\ Row.errors_as_array st.2
         = (Row.errors_as_array s
            ++ [Row.error_of (errors.STRING_TOO_LONG E) [g] None])%list).
Proof.
  cbv zeta. unfold Row.string_body.
  destruct (Row.datadict s !! g) as [val |]; [| by left].
  destruct (truthy val); [| by left].
  destruct (255 <? Z.of_nat (String.length val)); [| by left].
  right. split; [done |]. apply row_append_error_as_array.
Qed.

(** [validate_string_fields] returns true exactly when it added an error. *)
Lemma validate_string_fields_flag E mf (s : Row.t) :
  let r := Row.validate_string_fields E mf s in
  exists new,
    Row.errors_as_array r.2 = (Row.errors_as_array s ++ new)%list
    /\ (r.1 = true <-> new <> []).
Proof.
  cbv zeta. unfold Row.validate_string_fields, Row.for_each.
  assert (forall l h s0,
    exists new,
      Row.errors_as_array (foldl (Row.string_body E) (h, s0) l).2
      = (Row.errors_as_array s0 ++ new)%list
      /\ ((foldl (Row.string_body E) (h, s0) l).1 = true
          <-> h = true \/ new <> [])) as Hloop.
  { induction l as [| g l IH]; intros h s0.
    - exists []. simpl. rewrite app_nil_r. split; [done |].
      split; [by left | intros [Hh | Hn]; [exact Hh | by destruct Hn]].
    - cbn [foldl].
      pose proof (string_body_flag E h s0 g) as Hb. cbv zeta in Hb.
      destruct (Row.string_body E (h, s0) g) as [h1 s1]. simpl in Hb.
      destruct (IH h1 s1) as (new & Herr & Hflag).
      destruct Hb as [[-> He] | [-> He]].
      + exists new. rewrite Herr, He. done.
      + eexists. rewrite Herr, He, <- app_assoc. split; [done |].
        rewrite Hflag. simpl. split; [by right | by left]. }
  destruct (Hloop (STRING_FIELDS mf) false s) as (new & Herr & Hflag).
  exists new. split; [exact Herr |]. rewrite Hflag.
  split; [intros [Hh | Hn]; [discriminate Hh | exact Hn] | by right].
Qed.

(** C2 fails on the code.  A row whose only numeric value, the
    positive-float field "diameter", does not parse gets the fatal
    FloatParseError record, and [validate_numeric_fields] returns false:
    it returns the conjunction of the three groups' flags.  A row whose
    boolean field "read only" is the empty string gets no error, and
    [validate_boolean_fields] returns true. *)
Theorem validators_return_flag_mismatch :
  (Row.validate_numeric_fields errors.spec_table sample.trees
     sample.float sample.int (sample.row [("diameter", "wide")])).1 = false
  /\ Row.errors_as_array
       (Row.validate_numeric_fields errors.spec_table sample.trees
          sample.float sample.int (sample.row [("diameter", "wide")])).2
     = [Row.error_of (errors.FLOAT_ERROR errors.spec_table) ["diameter"] None]
  /\ Row.has_fatal_error
       (Row.validate_numeric_fields errors.spec_table sample.trees
          sample.float sample.int (sample.row [("diameter", "wide")])).2
     = true
  /\ (Row.validate_boolean_fields errors.spec_table sample.trees
        (sample.row [("read only", "")])).1 = true
  /\ Row.errors_as_array
       (Row.validate_boolean_fields errors.spec_table sample.trees
          (sample.row [("read only", "")])).2 = [].
Proof. repeat split; vm_compute; reflexivity. Qed.

(** ** The row: cleaned against errors *)

(** C3 fails on the code.  With a catalog of two date fields, a row whose
    "date planted" parses and whose "date removed" does not ends the pass
    with a cleaned entry under the canonical key "date planted" and a
    stored error naming that same key. *)
Theorem planted_date_cleaned_and_erroneous :
  Row.cleaned
    (Row.validate_and_convert_datatypes errors.spec_table sample.two_dates
       sample.float sample.int
       (sample.row [("date planted", "2020-03-15");
                    ("date removed", "last spring")]))
  !! "date planted"
  = Some (VDate {| datetime.year := 2020; datetime.month := 3;
                   datetime.day := 15 |})
  /\ Row.naming "date planted"
       (Row.errors_as_array
          (Row.validate_and_convert_datatypes errors.spec_table
             sample.two_dates sample.float sample.int
             (sample.row [("date planted", "2020-03-15");
                          ("date removed", "last spring")])))
     = [Row.error_of (errors.INVALID_DATE errors.spec_table)
          ["date planted"] None].
Proof. split; vm_compute; reflexivity. Qed.

(** ** The row: the fields to show again *)

Lemma copy_fields_fails dd fs acc f :
  f ∈ fs -> dd !! f = None ->
  exists k, Row.copy_fields dd fs acc = KeyError k.
Proof.
  revert acc. induction fs as [| g fs IH]; intros acc Hin Hf;
    [by apply elem_of_nil in Hin |].
  simpl. destruct (dd !! g) as [v |] eqn:Hg; [| by exists g].
  apply elem_of_cons in Hin as [-> | Hin]; [congruence |].
  by apply IH.
Qed.

(** A stored error naming a field the raw data do not have makes
    [get_fields_with_error] raise. *)
Lemma get_fields_with_error_fails (self : Row.t) e f :
  e ∈ Row.errors_as_array self -> f ∈ Row.fields e ->
  Row.datadict self !! f = None ->
  exists k, Row.get_fields_with_error self = KeyError k.
Proof.
  unfold Row.get_fields_with_error. generalize (∅ : gmap string string).
  induction (Row.errors_as_array self) as [| e0 es IH]; intros acc Hin Hf Hnone;
    [by apply elem_of_nil in Hin |].
  simpl. apply elem_of_cons in Hin as [<- | Hin].
  - destruct (copy_fields_fails (Row.datadict self) (Row.fields e) acc f Hf Hnone)
      as [k ->]. by exists k.
  - destruct (Row.copy_fields _ _ acc) as [acc' | k]; [| by exists k].
    by apply IH.
Qed.

(** C9 fails on the code.  With a catalog of two date fields, a row that
    has only an unparsable "date removed" stores an error naming the
    canonical key "date planted", which its raw data do not have, and
    [get_fields_with_error] raises [KeyError] on that name. *)
Theorem get_fields_with_error_key_error :
  Row.errors_as_array
    (Row.validate_date_fields errors.spec_table sample.two_dates
       (sample.row [("date removed", "last spring")])).2
  = [Row.error_of (errors.INVALID_DATE errors.spec_table)
       ["date planted"] None]
  /\ Row.datadict
       (Row.validate_date_fields errors.spec_table sample.two_dates
          (sample.row [("date removed", "last spring")])).2
     !! "date planted" = None
  /\ Row.get_fields_with_error
       (Row.validate_date_fields errors.spec_table sample.two_dates
          (sample.row [("date removed", "last spring")])).2
     = KeyError "date planted".
Proof. repeat split; vm_compute; reflexivity. Qed.

(** ** The row: the invariant of [cleaned], where it holds *)

Lemma keeps_exclusive f s s' : keeps f s s' -> exclusive f s s'.
Proof. intros Hk. exists (Row.cleaned s !! f), []. split; [exact Hk | by left]. Qed.

Lemma exclusive_keeps f s s1 s2 :
  exclusive f s s1 -> keeps f s1 s2 -> exclusive f s s2.
Proof.
  intros (cl & nf & Hd & Hor) Hk. exists cl, nf.
  split; [exact (delta_keeps _ _ _ _ _ _ Hd Hk) | exact Hor].
Qed.

Lemma keeps_exclusive_seq f s s1 s2 :
  keeps f s s1 -> exclusive f s1 s2 -> exclusive f s s2.
Proof.
  intros Hk (cl & nf & Hd & Hor). exists cl, nf.
  split; [exact (keeps_delta _ _ _ _ _ _ Hk Hd) |].
  destruct Hk as (_ & Hc & _). by rewrite <- Hc.
Qed.

Lemma step_ok_seq f G1 G2 s s1 s2 :
  (forall x, x ∈ G1 -> x ∉ G2) ->
  step_ok f G1 s s1 -> step_ok f G2 s1 s2 -> step_ok f (G1 ++ G2) s s2.
Proof.
  intros Hdisj [Hk1 Hx1] [Hk2 Hx2]. split.
  - intros Hnot. apply not_elem_of_app in Hnot as [Hn1 Hn2].
    exact (keeps_trans _ _ _ _ (Hk1 Hn1) (Hk2 Hn2)).
  - destruct (decide (f ∈ G1)) as [Hin | Hout].
    + exact (exclusive_keeps _ _ _ _ Hx1 (Hk2 (Hdisj f Hin))).
    + exact (keeps_exclusive_seq _ _ _ _ (Hk1 Hout) Hx2).
Qed.

Lemma for_each_step_ok f body l h s :
  (forall st g, g <> f -> keeps f st.2 (body st g).2) ->
  (forall st, exclusive f st.2 (body st f).2) ->
  NoDup l -> step_ok f l s (Row.for_each body l h s).2.
Proof.
  intros Hframe Hat Hnd. split; [apply for_each_frame, Hframe |].
  destruct (decide (f ∈ l)) as [Hin | Hout].
  - destruct (for_each_focus f body Hframe l h s Hnd Hin) as (st1 & Hk1 & Hk2).
    exact (keeps_exclusive_seq _ _ _ _ Hk1 (exclusive_keeps _ _ _ _ (Hat st1) Hk2)).
  - apply keeps_exclusive. by apply for_each_frame.
Qed.

Lemma cleanup_step_ok {A} (inj : A -> value) parse fn f l s :
  safe_spec parse fn -> NoDup l ->
  step_ok f l s (Row.cleanup inj l fn s).2.
Proof.
  intros Hfn Hnd. apply for_each_step_ok; [| | exact Hnd].
  - intros st g. by apply (cleanup_body_frame inj parse).
  - intros [h1 s1].
    destruct (cleanup_body_at inj parse fn Hfn f h1 s1) as (cl & nf & Hd & Hcase).
    exists cl, nf. split; [exact Hd |]. simpl.
    destruct (Row.datadict s1 !! f) as [[| a raw] |];
      [destruct Hcase as [_ ->]; by left | | destruct Hcase as [_ ->]; by left].
    destruct Hcase as [(x & _ & _ & ->) | [-> _]]; [by left | by right].
Qed.

Lemma boolean_step_ok E f l s :
  NoDup l -> step_ok f l s (Row.for_each (Row.boolean_body E) l false s).2.
Proof.
  intros Hnd. apply for_each_step_ok; [| | exact Hnd].
  - intros st g. apply boolean_body_frame.
  - intros [h1 s1]. simpl. unfold Row.boolean_body, Row.safe_bool.
    destruct (Row.datadict s1 !! f) as [raw |]; [| apply keeps_exclusive, keeps_refl].
    simpl.
    destruct (String.eqb (lower raw) ""); [apply keeps_exclusive, keeps_refl |].
    destruct (_ || _).
    { exists (Some (VBool true)), []. split; [| by left].
      split; [done |]. split; [apply lookup_insert_eq |].
      exists []. by rewrite app_nil_r. }
    destruct (_ || _).
    { exists (Some (VBool false)), []. split; [| by left].
      split; [done |]. split; [apply lookup_insert_eq |].
      exists []. by rewrite app_nil_r. }
    pose proof (row_append_error_data (errors.BOOL_ERROR E) (Field f) None s1)
      as [Hd Hc].
    exists (Row.cleaned s1 !! f), [Row.error_of (errors.BOOL_ERROR E) [f] None].
    split; [| by right].
    split; [done |]. split; [cbn [snd]; by rewrite Hc |].
    eexists. split; [apply row_append_error_as_array | by apply naming_self].
Qed.

Lemma string_step_ok E f l s :
  NoDup l -> step_ok f l s (Row.for_each (Row.string_body E) l false s).2.
Proof.
  intros Hnd. apply for_each_step_ok; [| | exact Hnd].
  - intros [h1 s1] g Hne. simpl. unfold Row.string_body.
    destruct (Row.datadict s1 !! g) as [val |]; [| apply keeps_refl].
    destruct (truthy val); [| apply keeps_refl].
    destruct (255 <? _); [by apply keeps_append_error | by apply keeps_set_cleaned].
  - intros [h1 s1]. simpl. unfold Row.string_body.
    destruct (Row.datadict s1 !! f) as [val |]; [| apply keeps_exclusive, keeps_refl].
    destruct (truthy val); [| apply keeps_exclusive, keeps_refl].
    destruct (255 <? _).
    + pose proof (row_append_error_data (errors.STRING_TOO_LONG E) (Field f) None s1)
        as [Hd Hc].
      exists (Row.cleaned s1 !! f),
             [Row.error_of (errors.STRING_TOO_LONG E) [f] None].
      split; [| by right].
      split; [done |]. split; [cbn [snd]; by rewrite Hc |].
      eexists. split; [apply row_append_error_as_array | by apply naming_self].
    + exists (Some (VStr val)), []. split; [| by left].
      split; [done |]. split; [apply lookup_insert_eq |].
      exists []. by rewrite app_nil_r.
Qed.

(** With the canonical key as the only date field, the date loop is keyed
    by its field like the others. *)
Lemma date_step_ok E mf f s :
  DATE_FIELDS mf = [DATE_PLANTED mf] ->
  step_ok f (DATE_FIELDS mf) s (Row.validate_date_fields E mf s).2.
Proof.
  intros Hone. unfold Row.validate_date_fields. rewrite Hone.
  set (key := DATE_PLANTED mf).
  assert (forall st g, g = key ->
            Row.date_body E mf st g
            = (let '(h, s0) := st in
               match Row.datadict s0 !! g with
               | Some val =>
                 if truthy val
                 then match datetime.strptime_Ymd val with
                      | Some d => (h, Row.set_cleaned g (VDate d) s0)
                      | None => (true,
                                 Row.append_error (errors.INVALID_DATE E)
                                   (Field g) None s0)
                      end
                 else (h, s0)
               | None => (h, s0)
               end)) as Hbody
    by (intros [h0 s0] g ->; reflexivity).
  unfold Row.for_each. cbn [foldl]. rewrite Hbody by reflexivity.
  split.
  - intros Hnot. assert (key <> f) as Hne
      by (intros ->; apply Hnot; by apply list_elem_of_singleton).
    destruct (Row.datadict s !! key) as [val |]; [| apply keeps_refl].
    destruct (truthy val); [| apply keeps_refl].
    destruct (datetime.strptime_Ymd val);
      [by apply keeps_set_cleaned | by apply keeps_append_error].
  - destruct (decide (key = f)) as [<- | Hne].
    + destruct (Row.datadict s !! key) as [val |]; [| apply keeps_exclusive, keeps_refl].
      destruct (truthy val); [| apply keeps_exclusive, keeps_refl].
      destruct (datetime.strptime_Ymd val) as [d |].
      * exists (Some (VDate d)), []. split; [| by left].
        split; [done |]. split; [apply lookup_insert_eq |].
        exists []. by rewrite app_nil_r.
      * pose proof (row_append_error_data (errors.INVALID_DATE E) (Field key) None s)
          as [Hd Hc].
        exists (Row.cleaned s !! key),
               [Row.error_of (errors.INVALID_DATE E) [key] None].
        split; [| by right].
        split; [done |]. split; [cbn [snd]; by rewrite Hc |].
        eexists. split; [apply row_append_error_as_array | by apply naming_self].
    + apply keeps_exclusive.
      destruct (Row.datadict s !! key) as [val |]; [| apply keeps_refl].
      destruct (truthy val); [| apply keeps_refl].
      destruct (datetime.strptime_Ymd val);
        [by apply keeps_set_cleaned | by apply keeps_append_error].
Qed.

Lemma validate_and_convert_datatypes_state E mf float int (s : Row.t) :
  Row.validate_and_convert_datatypes E mf float int s
  = (Row.validate_date_fields E mf
       (Row.validate_string_fields E mf
          (Row.validate_boolean_fields E mf
             (Row.validate_numeric_fields E mf float int s).2).2).2).2.
Proof.
  unfold Row.validate_and_convert_datatypes.
  destruct (Row.validate_numeric_fields E mf float int s) as [a s1]; simpl.
  destruct (Row.validate_boolean_fields E mf s1) as [b s2]; simpl.
  destruct (Row.validate_string_fields E mf s2) as [c s3]; simpl.
  destruct (Row.validate_date_fields E mf s3) as [d s4]. reflexivity.
Qed.

(** Where the invariant of [cleaned] does hold: when the catalog names
    every field in one group only and its single date field is the
    canonical key, a pass of the four validators never leaves a field both
    cleaned and named by an error of the pass. *)
Lemma cleaned_fields_have_no_error E mf float int (self : Row.t) f new :
  NoDup (POS_FLOAT_FIELDS mf ++ FLOAT_FIELDS mf ++ POS_INT_FIELDS mf
         ++ BOOLEAN_FIELDS mf ++ STRING_FIELDS mf ++ DATE_FIELDS mf) ->
  DATE_FIELDS mf = [DATE_PLANTED mf] ->
  Row.cleaned self !! f = None ->
  Row.errors_as_array (Row.validate_and_convert_datatypes E mf float int self)
  = (Row.errors_as_array self ++ new)%list ->
  is_Some (Row.cleaned
             (Row.validate_and_convert_datatypes E mf float int self) !! f) ->
  Row.naming f new = [].
Proof.
  intros Hnd Hone Hfresh.
  rewrite validate_and_convert_datatypes_state, validate_numeric_fields_state.
  apply NoDup_app in Hnd as (Hnd1 & Hdj1 & Hnd).
  apply NoDup_app in Hnd as (Hnd2 & Hdj2 & Hnd).
  apply NoDup_app in Hnd as (Hnd3 & Hdj3 & Hnd).
  apply NoDup_app in Hnd as (Hnd4 & Hdj4 & Hnd).
  apply NoDup_app in Hnd as (Hnd5 & Hdj5 & Hnd6).
  set (s1 := (Row.cleanup VFloat (POS_FLOAT_FIELDS mf)
                (Row.safe_pos_float E float) self).2).
  set (s2 := (Row.cleanup VFloat (FLOAT_FIELDS mf)
                (Row.safe_float E float) s1).2).
  set (s3 := (Row.cleanup VInt (POS_INT_FIELDS mf)
                (Row.safe_pos_int E int) s2).2).
  set (s4 := (Row.validate_boolean_fields E mf s3).2).
  set (s5 := (Row.validate_string_fields E mf s4).2).
  set (s6 := (Row.validate_date_fields E mf s5).2).
  assert (step_ok f
            (POS_FLOAT_FIELDS mf ++ FLOAT_FIELDS mf ++ POS_INT_FIELDS mf
             ++ BOOLEAN_FIELDS mf ++ STRING_FIELDS mf ++ DATE_FIELDS mf)
            self s6) as [_ (cl & nf & (_ & Hcl & new' & Herr & Hnf) & Hor)].
  { apply (step_ok_seq f _ _ self s1 s6 Hdj1);
      [exact (cleanup_step_ok VFloat float _ f _ self
                (safe_pos_float_spec E float) Hnd1) |].
    apply (step_ok_seq f _ _ s1 s2 s6 Hdj2);
      [exact (cleanup_step_ok VFloat float _ f _ s1
                (safe_float_spec E float) Hnd2) |].
    apply (step_ok_seq f _ _ s2 s3 s6 Hdj3);
      [exact (cleanup_step_ok VInt int _ f _ s2
                (safe_pos_int_spec E int) Hnd3) |].
    apply (step_ok_seq f _ _ s3 s4 s6 Hdj4);
      [exact (boolean_step_ok E f _ s3 Hnd4) |].
    apply (step_ok_seq f _ _ s4 s5 s6 Hdj5);
      [exact (string_step_ok E f _ s4 Hnd5) |].
    exact (date_step_ok E mf f s5 Hone). }
  intros Herr' Hsome. rewrite Herr in Herr'. apply app_inv_head in Herr'.
  subst new'. rewrite Hnf. destruct Hor as [Hnil | Hcl']; [exact Hnil |].
  rewrite Hcl, Hcl', Hfresh in Hsome. by destruct Hsome.
Qed.

(** ** The row: the fields to show again, where no key is missing *)

Lemma copy_fields_ok dd fs acc :
  (forall f, f ∈ fs -> is_Some (dd !! f)) ->
  exists m, Row.copy_fields dd fs acc = Ok m
            /\ forall f, m !! f = if decide (f ∈ fs) then dd !! f else acc !! f.
Proof.
  revert acc. induction fs as [| g fs IH]; intros acc Hall.
  - exists acc. split; [done |]. intros f. case_decide as Hin; [| done].
    by apply elem_of_nil in Hin.
  - simpl. destruct (Hall g) as [v Hv]; [apply elem_of_cons; by left |].
    rewrite Hv.
    destruct (IH (<[g := v]> acc)) as (m & Hm & Hlook).
    { intros f Hf. apply Hall. apply elem_of_cons. by right. }
    exists m. split; [exact Hm |]. intros f. rewrite Hlook.
    destruct (decide (f ∈ fs)) as [Hin | Hout].
    + rewrite decide_True; [done | apply elem_of_cons; by right].
    + destruct (decide (f = g)) as [-> | Hne].
      * rewrite decide_True by (apply elem_of_cons; by left).
        by rewrite lookup_insert_eq.
      * rewrite decide_False
          by (intros Hin; apply elem_of_cons in Hin as [? | ?]; done).
        by rewrite lookup_insert_ne.
Qed.

Lemma copy_errors_ok dd (es : list Row.error) acc :
  (forall e f, e ∈ es -> f ∈ Row.fields e -> is_Some (dd !! f)) ->
  exists m, Row.copy_errors dd es acc = Ok m
            /\ forall f, m !! f
                         = if decide (Exists (fun e => f ∈ Row.fields e) es)
                           then dd !! f else acc !! f.
Proof.
  revert acc. induction es as [| e es IH]; intros acc Hall.
  - exists acc. split; [done |]. intros f. case_decide as Hex; [| done].
    by apply Exists_nil in Hex.
  - simpl.
    destruct (copy_fields_ok dd (Row.fields e) acc) as (m1 & Hm1 & Hl1).
    { intros f Hf. apply (Hall e); [apply elem_of_cons; by left | exact Hf]. }
    rewrite Hm1.
    destruct (IH m1) as (m & Hm & Hl).
    { intros e' f He' Hf. apply (Hall e'); [apply elem_of_cons; by right | exact Hf]. }
    exists m. split; [exact Hm |]. intros f. rewrite Hl, Hl1.
    destruct (decide (Exists (fun e0 => f ∈ Row.fields e0) es)) as [Hex | Hnex].
    + rewrite decide_True; [done | by apply Exists_cons_tl].
    + destruct (decide (f ∈ Row.fields e)) as [Hin | Hout].
      * rewrite decide_True; [done | by apply Exists_cons_hd].
      * rewrite decide_False; [done |].
        intros Hex. apply Exists_cons in Hex as [? | ?]; done.
Qed.

(** When every field a stored error names is a key of the raw data,
    [get_fields_with_error] returns the raw values of exactly those
    fields. *)
Lemma get_fields_with_error_ok (self : Row.t) :
  (forall e f, e ∈ Row.errors_as_array self -> f ∈ Row.fields e ->
               is_Some (Row.datadict self !! f)) ->
  exists m,
    Row.get_fields_with_error self = Ok m
    /\ forall f, m !! f
                 = if decide (Exists (fun e => f ∈ Row.fields e)
                                (Row.errors_as_array self))
                   then Row.datadict self !! f else None.
Proof.
  intros Hall. unfold Row.get_fields_with_error.
  destruct (copy_errors_ok (Row.datadict self) (Row.errors_as_array self) ∅ Hall)
    as (m & Hm & Hl).
  exists m. split; [exact Hm |]. intros f. rewrite Hl.
  by rewrite lookup_empty.
Qed.

(** * Further properties *)

(** ** The event: running, finished, active *)

(** X1: no status is both running and finished; an event that is not
    active is finished and not running; and of the six status constants
    PendingVerification is the only one neither running nor finished. *)
Theorem status_predicates (self : Ev.t) :
  (Ev.is_running self && Ev.is_finished self = false)
  /\ (Ev.active self = false ->
      Ev.is_finished self = true /\ Ev.is_running self = false)
  /\ (Ev.status self ∈ [Ev.PENDING_VERIFICATION; Ev.VERIFIYING;
                         Ev.FINISHED_VERIFICATION; Ev.CREATING;
                         Ev.FINISHED_CREATING; Ev.FAILED_FILE_VERIFICATION] ->
      (Ev.is_running self || Ev.is_finished self = false
       <-> Ev.status self = Ev.PENDING_VERIFICATION)).
Proof.
  unfold Ev.is_running, Ev.is_finished, Ev.active,
    Ev.PENDING_VERIFICATION, Ev.VERIFIYING, Ev.FINISHED_VERIFICATION,
    Ev.CREATING, Ev.FINISHED_CREATING, Ev.FAILED_FILE_VERIFICATION.
  generalize (Ev.status self). intros z.
  split; [| split].
  - destruct (Z.eqb_spec z 2), (Z.eqb_spec z 4), (Z.eqb_spec z 3),
      (Z.eqb_spec z 5), (Z.eqb_spec z 6); simpl; try reflexivity; lia.
  - intros Hact. apply negb_false_iff in Hact. apply Z.eqb_eq in Hact as ->.
    split; reflexivity.
  - intros Hin.
    repeat (apply elem_of_cons in Hin as [-> | Hin];
            [simpl; split; intros; (discriminate || lia || reflexivity) |]).
    by apply elem_of_nil in Hin.
Qed.

(** ** The event: the structural check, in general *)

Lemma ev_has_errors_app (self : Ev.t) :
  Ev.has_errors self = true <-> Ev.errors_as_array self <> [].
Proof.
  unfold Ev.has_errors. destruct (Ev.errors_as_array self); simpl.
  - split; [discriminate | congruence].
  - split; [discriminate | reflexivity].
Qed.

Lemma elements_difference_nil (observed expected : gset string) :
  elements (observed ∖ expected) = [] <-> observed ⊆ expected.
Proof.
  split.
  - intros Hnil x Hx. destruct (decide (x ∈ expected)) as [Hin | Hout]; [done |].
    assert (x ∈ elements (observed ∖ expected)) as Hel
      by (apply elem_of_elements, elem_of_difference; done).
    rewrite Hnil in Hel. by apply elem_of_nil in Hel.
  - intros Hsub. destruct (elements (observed ∖ expected)) as [| x l] eqn:Hel;
      [done |].
    assert (x ∈ elements (observed ∖ expected)) as Hx
      by (rewrite Hel; apply elem_of_cons; by left).
    apply elem_of_elements, elem_of_difference in Hx as [Hin Hout].
    exfalso. apply Hout, Hsub, Hin.
Qed.

(** X2: [_validate_main_file] returns true exactly when there is a first
    row, the custom validator reports nothing about its fields, and all of
    its fields are expected ones. *)
Theorem validate_main_file_accepts_iff (E : errors.table)
    (datasource : list (gmap string string)) (fieldsource : gset string)
    (validate_custom_fields : gset string -> option error_def) (self : Ev.t) :
  (Ev._validate_main_file E datasource fieldsource validate_custom_fields self).1
  = true
  <-> exists row0 rest,
        datasource = row0 :: rest
        /\ validate_custom_fields (dom row0) = None
        /\ dom row0 ⊆ fieldsource.
Proof.
  unfold Ev._validate_main_file.
  destruct datasource as [| row0 rest]; simpl.
  { split; [discriminate | intros (? & ? & ? & _); discriminate]. }
  pose proof (elements_difference_nil (dom row0) fieldsource) as Hnil.
  destruct (elements (dom row0 ∖ fieldsource)) as [| x extra]; simpl.
  - destruct (validate_custom_fields (dom row0)) as [c |] eqn:Hc; simpl.
    + split; [discriminate |]. intros (r & l & Heq & Hnone & _).
      injection Heq as <- <-. congruence.
    + split; [| reflexivity]. intros _. exists row0, rest.
      split; [done |]. split; [done |]. by apply Hnil.
  - assert (~ dom row0 ⊆ fieldsource) as Hnot
      by (intros Hsub; apply Hnil in Hsub; discriminate).
    destruct (validate_custom_fields (dom row0)); simpl;
      (split; [discriminate |]; intros (r & l & Heq & _ & Hsub);
       injection Heq as <- <-; contradiction).
Qed.

(** X3: when [_validate_main_file] returns true the event is exactly as it
    was; when it returns false the status is FailedFileVerification, the
    event was saved once, one or two errors were appended after the stored
    ones, and [has_errors] holds. *)
Theorem validate_main_file_effect (E : errors.table)
    (datasource : list (gmap string string)) (fieldsource : gset string)
    (validate_custom_fields : gset string -> option error_def) (self : Ev.t) :
  let r := Ev._validate_main_file E datasource fieldsource
             validate_custom_fields self in
  (r.1 = true -> r.2 = self)
  /\ (r.1 = false ->
      Ev.status r.2 = Ev.FAILED_FILE_VERIFICATION
      /\ Ev.saves r.2 = S (Ev.saves self)
      /\ Ev.has_errors r.2 = true
      /\ exists new,
           Ev.errors_as_array r.2 = (Ev.errors_as_array self ++ new)%list
           /\ (length new = 1 \/ length new = 2)%nat).
Proof.
  cbv zeta. unfold Ev._validate_main_file.
  assert (forall s' new,
            Ev.errors_as_array s' = (Ev.errors_as_array self ++ new)%list ->
            Ev.saves s' = Ev.saves self ->
            (length new = 1 \/ length new = 2)%nat ->
            Ev.status (Ev.save (Ev.set_status Ev.FAILED_FILE_VERIFICATION s'))
            = Ev.FAILED_FILE_VERIFICATION
            /\ Ev.saves (Ev.save (Ev.set_status Ev.FAILED_FILE_VERIFICATION s'))
               = S (Ev.saves self)
            /\ Ev.has_errors (Ev.save (Ev.set_status Ev.FAILED_FILE_VERIFICATION s'))
               = true
            /\ exists new0,
                 Ev.errors_as_array
                   (Ev.save (Ev.set_status Ev.FAILED_FILE_VERIFICATION s'))
                 = (Ev.errors_as_array self ++ new0)%list
                 /\ (length new0 = 1 \/ length new0 = 2)%nat) as Hfail.
  { intros s' new Herr Hsaves Hlen.
    split; [reflexivity |]. split; [simpl; by rewrite Hsaves |].
    split; [| by exists new].
    apply ev_has_errors_app.
    change (Ev.errors_as_array s' <> []). rewrite Herr.
    destruct new; [simpl in Hlen; lia |]. by destruct (Ev.errors_as_array self). }
  destruct datasource as [| row0 rest]; simpl.
  { split; [discriminate |]. intros _.
    apply (Hfail _ [Ev.error_of (errors.EMPTY_FILE E) None]);
      [apply ev_append_error_as_array | apply ev_append_error_status | by left]. }
  destruct (validate_custom_fields (dom row0)) as [c |];
    destruct (elements (dom row0 ∖ fieldsource)) as [| x extra]; simpl.
  - split; [discriminate |]. intros _.
    apply (Hfail _ [Ev.error_of c None]);
      [apply ev_append_error_as_array | apply ev_append_error_status | by left].
  - split; [discriminate |]. intros _.
    apply (Hfail _ [Ev.error_of c None;
                    Ev.error_of (errors.UNMATCHED_FIELDS E) (Some (x :: extra))]).
    + rewrite !ev_append_error_as_array, <- app_assoc. reflexivity.
    + destruct (ev_append_error_status (errors.UNMATCHED_FIELDS E)
                  (Some (x :: extra)) (Ev.append_error c None self)) as [_ ->].
      apply ev_append_error_status.
    + by right.
  - split; [done | discriminate].
  - split; [discriminate |]. intros _.
    apply (Hfail _ [Ev.error_of (errors.UNMATCHED_FIELDS E) (Some (x :: extra))]);
      [apply ev_append_error_as_array | apply ev_append_error_status | by left].
Qed.

(** X4: when the custom validator reports an error about the first row's
    fields, [_validate_main_file] returns false and appends that error
    first, followed by the UnmatchedFields record exactly when some field
    is not an expected one. *)
Theorem validate_main_file_custom_error (E : errors.table)
    (row0 : gmap string string) (rest : list (gmap string string))
    (fieldsource : gset string)
    (validate_custom_fields : gset string -> option error_def)
    (custom_error : error_def) (self : Ev.t) :
  validate_custom_fields (dom row0) = Some custom_error ->
  let r := Ev._validate_main_file E (row0 :: rest) fieldsource
             validate_custom_fields self in
  r.1 = false
  /\ Ev.errors_as_array r.2
     = (Ev.errors_as_array self
        ++ Ev.error_of custom_error None
           :: (if decide (dom row0 ⊆ fieldsource) then []
               else [Ev.error_of (errors.UNMATCHED_FIELDS E)
                       (Some (elements (dom row0 ∖ fieldsource)))]))%list.
Proof.
  intros Hc. cbv zeta. unfold Ev._validate_main_file. rewrite Hc.
  pose proof (elements_difference_nil (dom row0) fieldsource) as Hnil.
  destruct (elements (dom row0 ∖ fieldsource)) as [| x extra] eqn:Hel; simpl.
  - rewrite decide_True by (by apply Hnil).
    split; [done |]. apply ev_append_error_as_array.
  - rewrite decide_False by (intros Hsub; apply Hnil in Hsub; discriminate).
    split; [done |].
    change (Ev.errors_as_array
              (Ev.append_error (errors.UNMATCHED_FIELDS E) (Some (x :: extra))
                 (Ev.append_error custom_error None self))
            = (Ev.errors_as_array self
               ++ [Ev.error_of custom_error None;
                   Ev.error_of (errors.UNMATCHED_FIELDS E) (Some (x :: extra))])%list).
    rewrite !ev_append_error_as_array, <- app_assoc. reflexivity.
Qed.

Lemma validate_main_file_custom_error_witness :
  Ev.errors_as_array
    (Ev._validate_main_file errors.spec_table
       [list_to_map [("point x", "1"); ("nickname", "oak")]]
       {["point x"; "point y"]}
       (fun _ => Some (5, "missing point y", true))
       (Ev.init "trees.csv")).2
  = [Ev.error_of (5, "missing point y", true) None;
     Ev.error_of (errors.UNMATCHED_FIELDS errors.spec_table) (Some ["nickname"])].
Proof.
  destruct (validate_main_file_custom_error errors.spec_table
              (list_to_map [("point x", "1"); ("nickname", "oak")]) []
              {["point x"; "point y"]}
              (fun _ => Some (5, "missing point y", true))
              (5, "missing point y", true) (Ev.init "trees.csv"))
    as [_ Herr]; [reflexivity |].
  rewrite Herr. vm_compute. reflexivity.
Defined.

(** ** The row: fatal errors *)

Lemma has_fatal_error_as_array (self : Row.t) :
  Row.has_fatal_error self = existsb Row.fatal (Row.errors_as_array self).
Proof.
  unfold Row.has_fatal_error, Row.errors_as_array.
  by destruct (Row.errors self).
Qed.

(** X5: [has_fatal_error] tells whether some stored error is fatal; after
    any sequence of [append_error] calls it holds exactly when it held
    before or one of the appended errors is a fatal one. *)
Theorem has_fatal_error_after_appends (self : Row.t)
    (calls : list (error_def * fields_arg * option (list string))) :
  (Row.has_fatal_error self = true
   <-> exists e, e ∈ Row.errors_as_array self /\ Row.fatal e = true)
  /\ Row.has_fatal_error (row_append_all calls self)
     = Row.has_fatal_error self || existsb (fun c => c.1.1.2) calls.
Proof.
  split.
  - rewrite has_fatal_error_as_array, existsb_exists.
    split; intros (e & He & Hf); exists e; (split; [| exact Hf]);
      by apply list_elem_of_In.
  - rewrite !has_fatal_error_as_array, row_append_all_as_array, existsb_app.
    f_equal. induction calls as [| c calls IH]; [done |].
    simpl. by rewrite IH.
Qed.

(** ** The event: counting rows by status *)

Lemma values_status_count_keys (rows : list Row.t) :
  (EventRows.values_status_count rows).*1 = remove_dups (Row.status <$> rows).
Proof.
  unfold EventRows.values_status_count.
  induction (remove_dups (Row.status <$> rows)) as [| st l IH]; [done |].
  rewrite !fmap_cons. simpl. by rewrite IH.
Qed.

Lemma row_counts_by_status_lookup (rows : list Row.t) (st : Z) :
  EventRows.row_counts_by_status rows !! st
  = if decide (st ∈ Row.status <$> rows)
    then Some (EventRows.count_status rows st) else None.
Proof.
  unfold EventRows.row_counts_by_status.
  case_decide as Hin.
  - apply elem_of_list_to_map_1.
    + rewrite values_status_count_keys. apply NoDup_remove_dups.
    + apply (list_elem_of_fmap_2 (fun st0 => (st0, EventRows.count_status rows st0))).
      by apply elem_of_remove_dups.
  - apply not_elem_of_list_to_map_1.
    rewrite values_status_count_keys. by rewrite elem_of_remove_dups.
Qed.

Lemma count_status_zero (rows : list Row.t) (st : Z) :
  st ∉ Row.status <$> rows -> EventRows.count_status rows st = 0%nat.
Proof.
  unfold EventRows.count_status. induction rows as [| r rows IH]; [done |].
  intros Hnot. rewrite fmap_cons in Hnot.
  apply not_elem_of_cons in Hnot as [Hne Hnot].
  rewrite filter_cons_False by congruence. by apply IH.
Qed.

Lemma count_status_split (rows : list Row.t) (st : Z) :
  (EventRows.count_status rows st
   + length (filter (fun r => Row.status r <> st) rows))%nat = length rows.
Proof.
  unfold EventRows.count_status. induction rows as [| r rows IH]; [done |].
  destruct (decide (Row.status r = st)) as [Heq | Hne].
  - rewrite filter_cons_True by done.
    rewrite (filter_cons_False (fun r0 => Row.status r0 <> st)) by (by intros ?).
    simpl. lia.
  - rewrite filter_cons_False by done.
    rewrite (filter_cons_True (fun r0 => Row.status r0 <> st)) by done.
    simpl. lia.
Qed.

(** X6: [row_counts_by_status] maps a status to the number of rows that
    have it, with no key for a status no row has; the counts of its
    entries are never zero. *)
Theorem row_counts_by_status_counts (row_set : list Row.t) (st : Z) :
  default 0%nat (EventRows.row_counts_by_status row_set !! st)
  = length (filter (fun r => Row.status r = st) row_set)
  /\ (is_Some (EventRows.row_counts_by_status row_set !! st)
      <-> exists r, r ∈ row_set /\ Row.status r = st).
Proof.
  rewrite row_counts_by_status_lookup. split.
  - case_decide as Hin; [done |]. simpl. symmetry. by apply count_status_zero.
  - case_decide as Hin.
    + split; [| by eexists]. intros _.
      apply list_elem_of_fmap in Hin as (r & -> & Hr). by exists r.
    + split; [by intros [? ?] |]. intros (r & Hr & <-).
      exfalso. apply Hin. by apply list_elem_of_fmap_2.
Qed.

(** X7: [completed_row_count] is the number of rows whose status is not
    Waiting; it lies between zero and the number of rows. *)
Theorem completed_row_count_not_waiting (row_set : list Row.t) :
  EventRows.completed_row_count row_set
  = Z.of_nat (length (filter (fun r => Row.status r <> Row.WAITING) row_set))
  /\ 0 <= EventRows.completed_row_count row_set <= Z.of_nat (length row_set).
Proof.
  unfold EventRows.completed_row_count.
  assert (default 0%nat (EventRows.row_counts_by_status row_set !! Row.WAITING)
          = EventRows.count_status row_set Row.WAITING) as ->.
  { rewrite row_counts_by_status_lookup. case_decide as Hin; [done |].
    simpl. symmetry. by apply count_status_zero. }
  pose proof (count_status_split row_set Row.WAITING) as Hsplit. lia.
Qed.

(** ** The row: the fields to show again, in general *)

Lemma copy_fields_key_error dd fs acc k :
  Row.copy_fields dd fs acc = KeyError k -> k ∈ fs /\ dd !! k = None.
Proof.
  revert acc. induction fs as [| g fs IH]; intros acc; simpl; [discriminate |].
  destruct (dd !! g) as [v |] eqn:Hg.
  - intros H. apply IH in H as [Hin Hk]. split; [| exact Hk].
    apply elem_of_cons. by right.
  - intros [= <-]. split; [apply elem_of_cons; by left | exact Hg].
Qed.

Lemma copy_errors_key_error dd (es : list Row.error) acc k :
  Row.copy_errors dd es acc = KeyError k ->
  (exists e, e ∈ es /\ k ∈ Row.fields e) /\ dd !! k = None.
Proof.
  revert acc. induction es as [| e es IH]; intros acc; simpl; [discriminate |].
  destruct (Row.copy_fields dd (Row.fields e) acc) as [acc' | k'] eqn:Hcf.
  - intros H. apply IH in H as [(e' & He' & Hk) Hnone]. split; [| exact Hnone].
    exists e'. split; [apply elem_of_cons; by right | exact Hk].
  - intros [= <-]. apply copy_fields_key_error in Hcf as [Hin Hnone].
    split; [| exact Hnone]. exists e. split; [apply elem_of_cons; by left | exact Hin].
Qed.

(** X8: [get_fields_with_error] returns a mapping exactly when every field
    named by a stored error is a key of the raw data.  The mapping then
    has the named fields as its keys, each with its raw value; otherwise
    the [KeyError] is about a named field the raw data lack. *)
Theorem get_fields_with_error_result (self : Row.t) :
  ((exists m, Row.get_fields_with_error self = Ok m)
   <-> error_fields_present self)
  /\ (forall m f,
        Row.get_fields_with_error self = Ok m ->
        m !! f = if decide (Exists (fun e => f ∈ Row.fields e)
                               (Row.errors_as_array self))
                 then Row.datadict self !! f else None)
  /\ (forall k,
        Row.get_fields_with_error self = KeyError k ->
        Row.datadict self !! k = None
        /\ exists e, e ∈ Row.errors_as_array self /\ k ∈ Row.fields e).
Proof.
  split; [| split].
  - split.
    + intros [m Hm] e f He Hf.
      destruct (Row.datadict self !! f) as [v |] eqn:Hv; [by eexists |].
      destruct (get_fields_with_error_fails self e f He Hf Hv) as [k Hk].
      congruence.
    + intros Hall. destruct (get_fields_with_error_ok self Hall) as (m & Hm & _).
      by exists m.
  - intros m f Hm.
    assert (error_fields_present self) as Hall.
    { intros e g He Hg.
      destruct (Row.datadict self !! g) as [w |] eqn:Hw; [by eexists |].
      destruct (get_fields_with_error_fails self e g He Hg Hw) as [k Hk].
      congruence. }
    destruct (get_fields_with_error_ok self Hall) as (m' & Hm' & Hl).
    assert (m' = m) as -> by congruence.
    rewrite Hl. by destruct (Row.datadict self !! f).
  - intros k Hk. unfold Row.get_fields_with_error in Hk.
    apply copy_errors_key_error in Hk as [Hex Hnone]. by split.
Qed.

(** ** The row: one field through a loop, in general *)

Lemma for_each_field
    (Q : gmap string string -> option value -> option value
         -> list Row.error -> Prop)
    f body l h s :
  (forall st g, g <> f -> keeps f st.2 (body st g).2) ->
  NoDup l -> f ∈ l ->
  (forall h1 s1, exists cl nf,
      delta f s1 (body (h1, s1) f).2 cl nf
      /\ Q (Row.datadict s1) (Row.cleaned s1 !! f) cl nf) ->
  exists cl nf,
    delta f s (Row.for_each body l h s).2 cl nf
    /\ Q (Row.datadict s) (Row.cleaned s !! f) cl nf.
Proof.
  intros Hframe Hnd Hin Hat.
  destruct (for_each_focus f body Hframe l h s Hnd Hin) as ([h1 s1] & Hk1 & Hk2).
  destruct (Hat h1 s1) as (cl & nf & Hd & HQ).
  exists cl, nf. split.
  - exact (keeps_delta _ _ _ _ _ _ Hk1 (delta_keeps _ _ _ _ _ _ Hd Hk2)).
  - destruct Hk1 as (Hdata & Hcl & _). simpl in Hdata, Hcl.
    by rewrite <- Hdata, <- Hcl.
Qed.

Lemma delta_set_cleaned f v s :
  delta f s (Row.set_cleaned f v s) (Some v) [].
Proof.
  split; [done |]. split; [apply lookup_insert_eq |].
  exists []. by rewrite app_nil_r.
Qed.

Lemma delta_append_error f err s :
  delta f s (Row.append_error err (Field f) None s) (Row.cleaned s !! f)
    [Row.error_of err [f] None].
Proof.
  pose proof (row_append_error_data err (Field f) None s) as [Hd Hc].
  split; [done |]. split; [by rewrite Hc |].
  eexists. split; [apply row_append_error_as_array | by apply naming_self].
Qed.

(** ** The row: string fields *)

Lemma string_body_frame E f st g :
  g <> f -> keeps f st.2 (Row.string_body E st g).2.
Proof.
  intros Hne. destruct st as [h1 s1]. simpl. unfold Row.string_body.
  destruct (Row.datadict s1 !! g) as [val |]; [| apply keeps_refl].
  destruct (truthy val); [| apply keeps_refl].
  destruct (255 <? _); [by apply keeps_append_error | by apply keeps_set_cleaned].
Qed.



(** ** The row: positive numbers *)

Lemma numeric_groups_disjoint mf :
  NoDup (POS_FLOAT_FIELDS mf ++ FLOAT_FIELDS mf ++ POS_INT_FIELDS mf) ->
  NoDup (POS_FLOAT_FIELDS mf) /\ NoDup (FLOAT_FIELDS mf)
  /\ NoDup (POS_INT_FIELDS mf)
  /\ (forall x, x ∈ POS_FLOAT_FIELDS mf -> x ∉ FLOAT_FIELDS mf)
  /\ (forall x, x ∈ POS_FLOAT_FIELDS mf -> x ∉ POS_INT_FIELDS mf)
  /\ (forall x, x ∈ FLOAT_FIELDS mf -> x ∉ POS_INT_FIELDS mf).
Proof.
  intros Hnd.
  apply NoDup_app in Hnd as (Hnd1 & Hdisj1 & Hnd23).
  apply NoDup_app in Hnd23 as (Hnd2 & Hdisj2 & Hnd3).
  repeat split; try done.
  - intros x Hx Hx2. apply (Hdisj1 x Hx). apply elem_of_app. by left.
  - intros x Hx Hx3. apply (Hdisj1 x Hx). apply elem_of_app. by right.
Qed.

(** X10: let [f] be a positive-float field with a non-empty raw value and
    no cleaned entry yet, the numeric groups naming each field once.
    After [validate_numeric_fields]: if [float] rejects the value, one
    error names [f], the FloatParseError record; if the number is
    negative, one error names [f], the PositiveFloatConstraint record; in
    both cases [cleaned] has no entry for [f].  Otherwise (zero and NaN
    included) the number is in [cleaned] and no error names [f]. *)
Theorem positive_float_field (E : errors.table) (mf : catalog)
    (float : string -> option PrimFloat.float) (int : string -> option Z)
    (self : Row.t) (f raw : string) :
  NoDup (POS_FLOAT_FIELDS mf ++ FLOAT_FIELDS mf ++ POS_INT_FIELDS mf) ->
  f ∈ POS_FLOAT_FIELDS mf ->
  Row.datadict self !! f = Some raw ->
  raw <> "" ->
  Row.cleaned self !! f = None ->
  let self' := (Row.validate_numeric_fields E mf float int self).2 in
  exists new,
    Row.errors_as_array self' = (Row.errors_as_array self ++ new)%list
    /\ match float raw with
       | None =>
         Row.cleaned self' !! f = None
         /\ Row.naming f new = [Row.error_of (errors.FLOAT_ERROR E) [f] None]
       | Some x =>
         if PrimFloat.ltb x PrimFloat.zero
         then Row.cleaned self' !! f = None
              /\ Row.naming f new
                 = [Row.error_of (errors.POS_FLOAT_ERROR E) [f] None]
         else Row.cleaned self' !! f = Some (VFloat x) /\ Row.naming f new = []
       end.
Proof.
  intros Hnd Hin Hraw Hne Hfresh. cbv zeta.
  rewrite validate_numeric_fields_state.
  destruct (numeric_groups_disjoint mf Hnd) as (Hnd1 & _ & _ & H12 & H13 & _).
  destruct (for_each_field
              (fun dd c0 cl nf =>
                 dd !! f = Some raw ->
                 match float raw with
                 | None =>
                   cl = c0 /\ nf = [Row.error_of (errors.FLOAT_ERROR E) [f] None]
                 | Some x =>
                   if PrimFloat.ltb x PrimFloat.zero
                   then cl = c0
                        /\ nf = [Row.error_of (errors.POS_FLOAT_ERROR E) [f] None]
                   else cl = Some (VFloat x) /\ nf = []
                 end)
              f (Row.cleanup_body VFloat (Row.safe_pos_float E float))
              (POS_FLOAT_FIELDS mf) false self
              (fun st g => cleanup_body_frame VFloat float _
                             (safe_pos_float_spec E float) f st g) Hnd1 Hin)
    as (cl & nf & Hd & HQ).
  { intros h1 s1. unfold Row.cleanup_body.
    destruct (Row.datadict s1 !! f) as [raw1 |] eqn:Hraw1;
      [| exists (Row.cleaned s1 !! f), []; split; [apply keeps_refl | done] ].
    destruct raw1 as [| a raw1].
    { exists (Row.cleaned s1 !! f), []. split; [apply keeps_refl |].
      intros [= <-]. done. }
    change (truthy (String a raw1)) with true. cbv iota.
    unfold Row.safe_pos_float, Row.safe_float. rewrite Hraw1. simpl.
    destruct (float (String a raw1)) as [x |] eqn:Hx.
    - destruct (PrimFloat.ltb x PrimFloat.zero) eqn:Hneg.
      + eexists _, _. split; [apply delta_append_error |].
        intros [= <-]. by rewrite Hx, Hneg.
      + eexists _, _. split; [apply delta_set_cleaned |].
        intros [= <-]. by rewrite Hx, Hneg.
    - eexists _, _. split; [apply delta_append_error |].
      intros [= <-]. by rewrite Hx. }
  pose proof (fun s0 => cleanup_frame VFloat float _ (safe_float_spec E float) f
                          (FLOAT_FIELDS mf) s0 (H12 f Hin)) as Hk2.
  pose proof (fun s0 => cleanup_frame VInt int _ (safe_pos_int_spec E int) f
                          (POS_INT_FIELDS mf) s0 (H13 f Hin)) as Hk3.
  pose proof (delta_keeps _ _ _ _ _ _ (delta_keeps _ _ _ _ _ _ Hd (Hk2 _)) (Hk3 _))
    as (_ & Hcl & new & Herr & Hnf).
  unfold Row.cleanup in *.
  exists new. split; [exact Herr |]. rewrite Hcl, Hnf.
  specialize (HQ Hraw). rewrite Hfresh in HQ. exact HQ.
Qed.

Lemma positive_float_field_witness :
  exists new,
    Row.errors_as_array
      (Row.validate_numeric_fields errors.spec_table sample.trees
         sample.float sample.int (sample.row [("diameter", "-3")])).2
    = (Row.errors_as_array (sample.row [("diameter", "-3")]) ++ new)%list
    /\ Row.cleaned
         (Row.validate_numeric_fields errors.spec_table sample.trees
            sample.float sample.int (sample.row [("diameter", "-3")])).2
       !! "diameter" = None
    /\ Row.naming "diameter" new
       = [Row.error_of (errors.POS_FLOAT_ERROR errors.spec_table)
            ["diameter"] None].
Proof.
  apply (positive_float_field errors.spec_table sample.trees
           sample.float sample.int (sample.row [("diameter", "-3")])
           "diameter" "-3").
  - apply (bool_decide_unpack _). vm_compute. reflexivity.
  - apply (bool_decide_unpack _). vm_compute. reflexivity.
  - vm_compute. reflexivity.
  - discriminate.
  - vm_compute. reflexivity.
Defined.

(** X11: let [f] be a positive-int field with a non-empty raw value and no
    cleaned entry yet, the numeric groups naming each field once.  After
    [validate_numeric_fields]: if [int] rejects the value, one error
    names [f], the IntParseError record; if the integer is negative, one
    error names [f], the PositiveIntConstraint record; in both cases
    [cleaned] has no entry for [f].  Otherwise (zero included) the integer
    is in [cleaned] and no error names [f]. *)
Theorem positive_int_field (E : errors.table) (mf : catalog)
    (float : string -> option PrimFloat.float) (int : string -> option Z)
    (self : Row.t) (f raw : string) :
  NoDup (POS_FLOAT_FIELDS mf ++ FLOAT_FIELDS mf ++ POS_INT_FIELDS mf) ->
  f ∈ POS_INT_FIELDS mf ->
  Row.datadict self !! f = Some raw ->
  raw <> "" ->
  Row.cleaned self !! f = None ->
  let self' := (Row.validate_numeric_fields E mf float int self).2 in
  exists new,
    Row.errors_as_array self' = (Row.errors_as_array self ++ new)%list
    /\ match int raw with
       | None =>
         Row.cleaned self' !! f = None
         /\ Row.naming f new = [Row.error_of (errors.INT_ERROR E) [f] None]
       | Some n =>
         if n <? 0
         then Row.cleaned self' !! f = None
              /\ Row.naming f new
                 = [Row.error_of (errors.POS_INT_ERROR E) [f] None]
         else Row.cleaned self' !! f = Some (VInt n) /\ Row.naming f new = []
       end.
Proof.
  intros Hnd Hin Hraw Hne Hfresh. cbv zeta.
  rewrite validate_numeric_fields_state.
  destruct (numeric_groups_disjoint mf Hnd) as (_ & _ & Hnd3 & _ & H13 & H23).
  assert (f ∉ POS_FLOAT_FIELDS mf) as Hn1 by (intros H1; by apply (H13 f H1)).
  assert (f ∉ FLOAT_FIELDS mf) as Hn2 by (intros H2; by apply (H23 f H2)).
  pose proof (cleanup_frame VFloat float _ (safe_pos_float_spec E float) f
                (POS_FLOAT_FIELDS mf) self Hn1) as Hk1.
  set (s1 := (Row.cleanup VFloat (POS_FLOAT_FIELDS mf)
                (Row.safe_pos_float E float) self).2) in *.
  pose proof (cleanup_frame VFloat float _ (safe_float_spec E float) f
                (FLOAT_FIELDS mf) s1 Hn2) as Hk2.
  set (s2 := (Row.cleanup VFloat (FLOAT_FIELDS mf)
                (Row.safe_float E float) s1).2) in *.
  pose proof (keeps_trans _ _ _ _ Hk1 Hk2) as Hk.
  destruct (for_each_field
              (fun dd c0 cl nf =>
                 dd !! f = Some raw ->
                 match int raw with
                 | None =>
                   cl = c0 /\ nf = [Row.error_of (errors.INT_ERROR E) [f] None]
                 | Some n =>
                   if n <? 0
                   then cl = c0
                        /\ nf = [Row.error_of (errors.POS_INT_ERROR E) [f] None]
                   else cl = Some (VInt n) /\ nf = []
                 end)
              f (Row.cleanup_body VInt (Row.safe_pos_int E int))
              (POS_INT_FIELDS mf) false s2
              (fun st g => cleanup_body_frame VInt int _
                             (safe_pos_int_spec E int) f st g) Hnd3 Hin)
    as (cl & nf & Hd & HQ).
  { intros h1 t1. unfold Row.cleanup_body.
    destruct (Row.datadict t1 !! f) as [raw1 |] eqn:Hraw1;
      [| exists (Row.cleaned t1 !! f), []; split; [apply keeps_refl | done] ].
    destruct raw1 as [| a raw1].
    { exists (Row.cleaned t1 !! f), []. split; [apply keeps_refl |].
      intros [= <-]. done. }
    change (truthy (String a raw1)) with true. cbv iota.
    unfold Row.safe_pos_int, Row.safe_int. rewrite Hraw1. simpl.
    destruct (int (String a raw1)) as [n |] eqn:Hn.
    - destruct (n <? 0) eqn:Hneg.
      + eexists _, _. split; [apply delta_append_error |].
        intros [= <-]. by rewrite Hn, Hneg.
      + eexists _, _. split; [apply delta_set_cleaned |].
        intros [= <-]. by rewrite Hn, Hneg.
    - eexists _, _. split; [apply delta_append_error |].
      intros [= <-]. by rewrite Hn. }
  pose proof (keeps_delta _ _ _ _ _ _ Hk Hd) as (_ & Hcl & new & Herr & Hnf).
  subst s1 s2. unfold Row.cleanup in *.
  exists new. split; [exact Herr |]. rewrite Hcl, Hnf.
  destruct Hk as (Hdata & Hc & _). rewrite Hdata in HQ. specialize (HQ Hraw).
  rewrite Hc, Hfresh in HQ. exact HQ.
Qed.

Lemma positive_int_field_witness :
  exists new,
    Row.errors_as_array
      (Row.validate_numeric_fields errors.spec_table sample.trees
         sample.float sample.int (sample.row [("opentreemap id number", "0")])).2
    = (Row.errors_as_array (sample.row [("opentreemap id number", "0")])
       ++ new)%list
    /\ Row.cleaned
         (Row.validate_numeric_fields errors.spec_table sample.trees
            sample.float sample.int
            (sample.row [("opentreemap id number", "0")])).2
       !! "opentreemap id number" = Some (VInt 0)
    /\ Row.naming "opentreemap id number" new = [].
Proof.
  apply (positive_int_field errors.spec_table sample.trees
           sample.float sample.int
           (sample.row [("opentreemap id number", "0")])
           "opentreemap id number" "0").
  - apply (bool_decide_unpack _). vm_compute. reflexivity.
  - apply (bool_decide_unpack _). vm_compute. reflexivity.
  - vm_compute. reflexivity.
  - discriminate.
  - vm_compute. reflexivity.
Defined.

(** ** The row: what each validator returns, in general *)

Lemma for_each_flag body (bad : gmap string string -> string -> bool) l h s :
  (forall st g,
      (body st g).1 = st.1 || bad (Row.datadict st.2) g
      /\ Row.datadict (body st g).2 = Row.datadict st.2) ->
  (Row.for_each body l h s).1 = h || existsb (bad (Row.datadict s)) l
  /\ Row.datadict (Row.for_each body l h s).2 = Row.datadict s.
Proof.
  intros Hbody. unfold Row.for_each. revert h s.
  induction l as [| g l IH]; intros h s.
  - simpl. by rewrite orb_false_r.
  - cbn [foldl existsb]. destruct (Hbody (h, s) g) as [Hflag Hdata].
    destruct (body (h, s) g) as [h1 s1]. simpl in Hflag, Hdata.
    destruct (IH h1 s1) as [-> ->]. rewrite Hdata, Hflag.
    split; [by rewrite orb_assoc | done].
Qed.

Lemma safe_spec_data {A} (parse : string -> option A) fn g s :
  safe_spec parse fn -> Row.datadict (fn g s).2 = Row.datadict s.
Proof.
  intros Hfn. specialize (Hfn g s). destruct (fn g s) as [[x |] s1]; simpl.
  - by destruct Hfn as [-> _].
  - by destruct Hfn as [-> _].
Qed.

Lemma cleanup_body_flag {A} (inj : A -> value) parse (ok : A -> bool) fn st g :
  safe_spec parse fn ->
  (forall s raw, Row.datadict s !! g = Some raw ->
                 (fn g s).1 = parse raw ≫= (fun x => if ok x then Some x else None)) ->
  (Row.cleanup_body inj fn st g).1
  = st.1 || bad_number parse ok (Row.datadict st.2) g
  /\ Row.datadict (Row.cleanup_body inj fn st g).2 = Row.datadict st.2.
Proof.
  intros Hfn Hres. destruct st as [h s]. unfold Row.cleanup_body, bad_number.
  simpl. destruct (Row.datadict s !! g) as [raw |] eqn:Hraw;
    [| by rewrite orb_false_r].
  destruct (truthy raw); [| by rewrite orb_false_r].
  pose proof (Hres s raw Hraw) as Hr.
  pose proof (safe_spec_data parse fn g s Hfn) as Hd.
  destruct (fn g s) as [[x |] s1]; simpl in *.
  - split; [| exact Hd]. destruct (parse raw) as [y |]; [| discriminate].
    simpl in Hr. destruct (ok y); [by rewrite orb_false_r | discriminate].
  - split; [| exact Hd]. destruct (parse raw) as [y |]; [| by rewrite orb_true_r].
    simpl in Hr. destruct (ok y); [discriminate | by rewrite orb_true_r].
Qed.

Lemma safe_float_result E float g s raw :
  Row.datadict s !! g = Some raw ->
  (Row.safe_float E float g s).1
  = float raw ≫= (fun x => if any_number x then Some x else None).
Proof.
  intros Hraw. unfold Row.safe_float. rewrite Hraw. simpl.
  by destruct (float raw).
Qed.

Lemma safe_pos_float_result E float g s raw :
  Row.datadict s !! g = Some raw ->
  (Row.safe_pos_float E float g s).1
  = float raw ≫= (fun x => if float_not_negative x then Some x else None).
Proof.
  intros Hraw. unfold Row.safe_pos_float, Row.safe_float, float_not_negative.
  rewrite Hraw. simpl. destruct (float raw) as [x |]; [| done]. simpl.
  by destruct (PrimFloat.ltb x PrimFloat.zero).
Qed.

Lemma safe_pos_int_result E int g s raw :
  Row.datadict s !! g = Some raw ->
  (Row.safe_pos_int E int g s).1
  = int raw ≫= (fun n => if int_not_negative n then Some n else None).
Proof.
  intros Hraw. unfold Row.safe_pos_int, Row.safe_int, int_not_negative.
  rewrite Hraw. simpl. destruct (int raw) as [n |]; [| done]. simpl.
  by destruct (n <? 0).
Qed.

(** X12: [validate_numeric_fields] never touches the raw data, and it
    returns true exactly when each of the three numeric groups has a
    field whose non-empty value is in error: unparsable, or negative in a
    positive-only group. *)
Theorem validate_numeric_fields_returns (E : errors.table) (mf : catalog)
    (float : string -> option PrimFloat.float) (int : string -> option Z)
    (self : Row.t) :
  let r := Row.validate_numeric_fields E mf float int self in
  r.1 = existsb (bad_number float float_not_negative (Row.datadict self))
          (POS_FLOAT_FIELDS mf)
        && existsb (bad_number float any_number (Row.datadict self))
             (FLOAT_FIELDS mf)
        && existsb (bad_number int int_not_negative (Row.datadict self))
             (POS_INT_FIELDS mf)
  /\ Row.datadict r.2 = Row.datadict self.
Proof.
  cbv zeta.
  rewrite validate_numeric_fields_flag, validate_numeric_fields_state.
  unfold Row.cleanup.
  destruct (for_each_flag (Row.cleanup_body VFloat (Row.safe_pos_float E float))
              (bad_number float float_not_negative)
              (POS_FLOAT_FIELDS mf) false self) as [-> Hd1].
  { intros st g. apply cleanup_body_flag;
      [apply safe_pos_float_spec | apply safe_pos_float_result]. }
  set (s1 := (Row.for_each _ (POS_FLOAT_FIELDS mf) false self).2) in *.
  destruct (for_each_flag (Row.cleanup_body VFloat (Row.safe_float E float))
              (bad_number float any_number)
              (FLOAT_FIELDS mf) false s1) as [-> Hd2].
  { intros st g. apply cleanup_body_flag;
      [apply safe_float_spec | apply safe_float_result]. }
  set (s2 := (Row.for_each _ (FLOAT_FIELDS mf) false s1).2) in *.
  destruct (for_each_flag (Row.cleanup_body VInt (Row.safe_pos_int E int))
              (bad_number int int_not_negative)
              (POS_INT_FIELDS mf) false s2) as [-> Hd3].
  { intros st g. apply cleanup_body_flag;
      [apply safe_pos_int_spec | apply safe_pos_int_result]. }
  rewrite Hd3, Hd2, Hd1. done.
Qed.

Lemma boolean_body_flag E st g :
  (Row.boolean_body E st g).1 = st.1 || not_boolean (Row.datadict st.2) g
  /\ Row.datadict (Row.boolean_body E st g).2 = Row.datadict st.2.
Proof.
  destruct st as [h s]. unfold Row.boolean_body, Row.safe_bool, not_boolean.
  simpl. destruct (Row.datadict s !! g) as [raw |]; [| by rewrite orb_false_r].
  simpl.
  destruct (String.eqb_spec (lower raw) "") as [H0 | H0].
  { rewrite H0. simpl. by rewrite orb_true_r. }
  destruct (String.eqb_spec (lower raw) "true") as [H1 | H1];
  [| destruct (String.eqb_spec (lower raw) "t") as [H2 | H2];
     [| destruct (String.eqb_spec (lower raw) "yes") as [H3 | H3] ] ];
  simpl.
  1-3: rewrite ?H1, ?H2, ?H3; simpl; by rewrite orb_false_r.
  destruct (String.eqb_spec (lower raw) "false") as [H4 | H4];
  [| destruct (String.eqb_spec (lower raw) "f") as [H5 | H5];
     [| destruct (String.eqb_spec (lower raw) "no") as [H6 | H6] ] ];
  simpl.
  1-3: rewrite ?H4, ?H5, ?H6; simpl; by rewrite orb_false_r.
  rewrite bool_decide_eq_false_2.
  - simpl. rewrite orb_true_r. split; [done |]. apply row_append_error_data.
  - intros Hin. simpl in Hin. word_cases Hin.
Qed.

(** X13: [validate_boolean_fields] never touches the raw data, and it
    returns true exactly when the raw data have a declared boolean field
    whose value, lowered, is none of the six recognised words; the empty
    string counts, although no error is recorded for it. *)
Theorem validate_boolean_fields_returns (E : errors.table) (mf : catalog)
    (self : Row.t) :
  let r := Row.validate_boolean_fields E mf self in
  r.1 = existsb (not_boolean (Row.datadict self)) (BOOLEAN_FIELDS mf)
  /\ Row.datadict r.2 = Row.datadict self.
Proof.
  cbv zeta. unfold Row.validate_boolean_fields.
  apply (for_each_flag (Row.boolean_body E) not_boolean).
  intros st g. apply boolean_body_flag.
Qed.




(** ** The row: what a pass leaves alone *)

Lemma for_each_keeps_all f body l h s :
  (forall st g, keeps f st.2 (body st g).2) ->
  keeps f s (Row.for_each body l h s).2.
Proof.
  intros Hbody. unfold Row.for_each. revert h s.
  induction l as [| g l IH]; intros h s; [apply keeps_refl |].
  cbn [foldl]. specialize (Hbody (h, s) g).
  destruct (body (h, s) g) as [h1 s1].
  exact (keeps_trans _ _ _ _ Hbody (IH h1 s1)).
Qed.

Lemma date_body_keeps E mf f st g :
  DATE_PLANTED mf <> f -> keeps f st.2 (Row.date_body E mf st g).2.
Proof.
  intros Hne. destruct st as [h s]. unfold Row.date_body. simpl.
  destruct (Row.datadict s !! g) as [val |]; [| apply keeps_refl].
  destruct (truthy val); [| apply keeps_refl].
  destruct (datetime.strptime_Ymd val);
    [by apply keeps_set_cleaned | by apply keeps_append_error].
Qed.

(** X15: a pass of the four validators does nothing about a field that is
    in none of the numeric, boolean and string groups and is not the
    canonical planted-date key: its cleaned entry is as before and no
    error of the pass names it. *)
Theorem undeclared_field_untouched (E : errors.table) (mf : catalog)
    (float : string -> option PrimFloat.float) (int : string -> option Z)
    (self : Row.t) (f : string) :
  f ∉ keyed_fields mf ->
  f <> DATE_PLANTED mf ->
  let self' := Row.validate_and_convert_datatypes E mf float int self in
  Row.cleaned self' !! f = Row.cleaned self !! f
  /\ exists new,
       Row.errors_as_array self' = (Row.errors_as_array self ++ new)%list
       /\ Row.naming f new = [].
Proof.
  intros Hnot Hdate. cbv zeta.
  rewrite validate_and_convert_datatypes_state, validate_numeric_fields_state.
  unfold keyed_fields in Hnot.
  apply not_elem_of_app in Hnot as [Hn1 Hnot].
  apply not_elem_of_app in Hnot as [Hn2 Hnot].
  apply not_elem_of_app in Hnot as [Hn3 Hnot].
  apply not_elem_of_app in Hnot as [Hn4 Hn5].
  assert (keeps f self
            (Row.validate_date_fields E mf
               (Row.validate_string_fields E mf
                  (Row.validate_boolean_fields E mf
                     (Row.cleanup VInt (POS_INT_FIELDS mf) (Row.safe_pos_int E int)
                        (Row.cleanup VFloat (FLOAT_FIELDS mf)
                           (Row.safe_float E float)
                           (Row.cleanup VFloat (POS_FLOAT_FIELDS mf)
                              (Row.safe_pos_float E float) self).2).2).2).2).2).2)
    as (_ & Hcl & Hnew).
  { eapply keeps_trans;
      [apply (cleanup_frame VFloat float _ (safe_pos_float_spec E float) f _ _ Hn1) |].
    eapply keeps_trans;
      [apply (cleanup_frame VFloat float _ (safe_float_spec E float) f _ _ Hn2) |].
    eapply keeps_trans;
      [apply (cleanup_frame VInt int _ (safe_pos_int_spec E int) f _ _ Hn3) |].
    eapply keeps_trans;
      [apply (for_each_frame f (Row.boolean_body E)
                (fun st g => boolean_body_frame E f st g) _ false _ Hn4) |].
    eapply keeps_trans;
      [apply (for_each_frame f (Row.string_body E)
                (fun st g => string_body_frame E f st g) _ false _ Hn5) |].
    apply for_each_keeps_all. intros st g. apply date_body_keeps. congruence. }
  split; [exact Hcl | exact Hnew].
Qed.

Lemma undeclared_field_untouched_witness :
  Row.cleaned
    (Row.validate_and_convert_datatypes errors.spec_table sample.trees
       sample.float sample.int
       (sample.row [("nickname", "old oak"); ("diameter", "wide")]))
  !! "nickname" = None.
Proof.
  destruct (undeclared_field_untouched errors.spec_table sample.trees
              sample.float sample.int
              (sample.row [("nickname", "old oak"); ("diameter", "wide")])
              "nickname") as [Hcl _].
  - apply (bool_decide_unpack _). vm_compute. reflexivity.
  - discriminate.
  - rewrite Hcl. vm_compute. reflexivity.
Defined.

Lemma grows_refl s : grows s s.
Proof.
  repeat split; try done. exists []. by rewrite app_nil_r.
Qed.

Lemma grows_trans s s1 s2 : grows s s1 -> grows s1 s2 -> grows s s2.
Proof.
  intros (Hd1 & Hi1 & Hf1 & Hs1 & [n1 He1] & Hc1)
         (Hd2 & Hi2 & Hf2 & Hs2 & [n2 He2] & Hc2).
  split; [congruence |]. split; [congruence |]. split; [congruence |].
  split; [congruence |]. split.
  - exists (n1 ++ n2)%list. rewrite He2, He1. by rewrite <- app_assoc.
  - by etrans.
Qed.

Lemma grows_set_cleaned g v s : grows s (Row.set_cleaned g v s).
Proof.
  repeat split; try done.
  - exists []. by rewrite app_nil_r.
  - simpl. rewrite dom_insert. apply union_subseteq_r.
Qed.

Lemma grows_append_error err flds d s : grows s (Row.append_error err flds d s).
Proof.
  pose proof (row_append_error_as_array err flds d s) as He.
  destruct err as [[c m] fl]. unfold Row.append_error in *.
  destruct (Row.errors s); (repeat split; try done; by eexists).
Qed.

Lemma for_each_grows body l h s :
  (forall st g, grows st.2 (body st g).2) ->
  grows s (Row.for_each body l h s).2.
Proof.
  intros Hbody. unfold Row.for_each. revert h s.
  induction l as [| g l IH]; intros h s; [apply grows_refl |].
  cbn [foldl]. specialize (Hbody (h, s) g).
  destruct (body (h, s) g) as [h1 s1].
  exact (grows_trans _ _ _ Hbody (IH h1 s1)).
Qed.

Lemma cleanup_body_grows {A} (inj : A -> value) fn st g :
  (forall g0 s0, grows s0 (fn g0 s0).2) ->
  grows st.2 (Row.cleanup_body inj fn st g).2.
Proof.
  intros Hfn. destruct st as [h s]. unfold Row.cleanup_body. simpl.
  destruct (Row.datadict s !! g) as [raw |]; [| apply grows_refl].
  destruct (truthy raw); [| apply grows_refl].
  specialize (Hfn g s). destruct (fn g s) as [[x |] s1]; simpl in *.
  - exact (grows_trans _ _ _ Hfn (grows_set_cleaned g (inj x) s1)).
  - exact Hfn.
Qed.

Lemma safe_float_grows E float g s : grows s (Row.safe_float E float g s).2.
Proof.
  unfold Row.safe_float. destruct (_ ≫= float);
    [apply grows_refl | apply grows_append_error].
Qed.

Lemma safe_pos_float_grows E float g s :
  grows s (Row.safe_pos_float E float g s).2.
Proof.
  unfold Row.safe_pos_float. pose proof (safe_float_grows E float g s) as Hg.
  destruct (Row.safe_float E float g s) as [[x |] s1]; simpl in *; [| exact Hg].
  destruct (PrimFloat.ltb x PrimFloat.zero); [| exact Hg].
  exact (grows_trans _ _ _ Hg (grows_append_error _ _ _ s1)).
Qed.

Lemma safe_pos_int_grows E int g s : grows s (Row.safe_pos_int E int g s).2.
Proof.
  unfold Row.safe_pos_int, Row.safe_int.
  destruct (_ ≫= int) as [n |]; simpl; [| apply grows_append_error].
  destruct (n <? 0); [apply grows_append_error | apply grows_refl].
Qed.

(** X16: a pass of the four validators changes nothing of the row but its
    errors and its cleaned dict: the raw data, the index, the finished
    flag and the status are as before, the stored errors are all still
    there, in order, before the new ones, and no key of [cleaned] is
    removed. *)
Theorem pass_only_grows (E : errors.table) (mf : catalog)
    (float : string -> option PrimFloat.float) (int : string -> option Z)
    (self : Row.t) :
  let self' := Row.validate_and_convert_datatypes E mf float int self in
  Row.datadict self' = Row.datadict self
  /\ Row.idx self' = Row.idx self
  /\ Row.finished self' = Row.finished self
  /\ Row.status self' = Row.status self
  /\ (exists new,
        Row.errors_as_array self' = (Row.errors_as_array self ++ new)%list)
  /\ dom (Row.cleaned self) ⊆ dom (Row.cleaned self').
Proof.
  cbv zeta. change (grows self (Row.validate_and_convert_datatypes E mf float int self)).
  rewrite validate_and_convert_datatypes_state, validate_numeric_fields_state.
  unfold Row.validate_date_fields, Row.validate_string_fields,
    Row.validate_boolean_fields, Row.cleanup.
  eapply grows_trans;
    [| apply for_each_grows; intros [h s] g; unfold Row.date_body; simpl;
       destruct (Row.datadict s !! g) as [val |]; [| apply grows_refl];
       destruct (truthy val); [| apply grows_refl];
       destruct (datetime.strptime_Ymd val);
       [apply grows_set_cleaned | apply grows_append_error] ].
  eapply grows_trans;
    [| apply for_each_grows; intros [h s] g; unfold Row.string_body; simpl;
       destruct (Row.datadict s !! g) as [val |]; [| apply grows_refl];
       destruct (truthy val); [| apply grows_refl];
       destruct (255 <? _); [apply grows_append_error | apply grows_set_cleaned] ].
  eapply grows_trans;
    [| apply for_each_grows; intros [h s] g;
       unfold Row.boolean_body, Row.safe_bool; simpl;
       destruct (Row.datadict s !! g) as [raw |]; [| apply grows_refl]; simpl;
       destruct (String.eqb (lower raw) ""); [apply grows_refl |];
       destruct (_ || _); [apply grows_set_cleaned |];
       destruct (_ || _); [apply grows_set_cleaned | apply grows_append_error] ].
  eapply grows_trans;
    [| apply for_each_grows; intros st g; apply cleanup_body_grows;
       apply safe_pos_int_grows ].
  eapply grows_trans;
    [| apply for_each_grows; intros st g; apply cleanup_body_grows;
       apply safe_float_grows ].
  apply for_each_grows. intros st g. apply cleanup_body_grows.
  apply safe_pos_float_grows.
Qed.

(** X17: on a new row (no stored error, nothing cleaned), when the catalog
    names every field in one group only and its single date field is the
    canonical key, a pass of the four validators leaves no field both
    cleaned and named by a stored error. *)
Theorem new_row_cleaned_apart_from_errors (E : errors.table) (mf : catalog)
    (float : string -> option PrimFloat.float) (int : string -> option Z)
    (self : Row.t) (f : string) :
  NoDup (POS_FLOAT_FIELDS mf ++ FLOAT_FIELDS mf ++ POS_INT_FIELDS mf
         ++ BOOLEAN_FIELDS mf ++ STRING_FIELDS mf ++ DATE_FIELDS mf) ->
  DATE_FIELDS mf = [DATE_PLANTED mf] ->
  Row.cleaned self = ∅ ->
  Row.errors_as_array self = [] ->
  let self' := Row.validate_and_convert_datatypes E mf float int self in
  is_Some (Row.cleaned self' !! f) ->
  Row.naming f (Row.errors_as_array self') = [].
Proof.
  intros Hnd Hone Hclean Herr. cbv zeta. intros Hsome.
  apply (cleaned_fields_have_no_error E mf float int self f _ Hnd Hone).
  - by rewrite Hclean, lookup_empty.
  - by rewrite Herr.
  - exact Hsome.
Qed.

Lemma new_row_cleaned_apart_from_errors_witness :
  Row.naming "diameter"
    (Row.errors_as_array
       (Row.validate_and_convert_datatypes errors.spec_table sample.trees
          sample.float sample.int
          (sample.row [("diameter", "12"); ("read only", "maybe")])))
  = [].
Proof.
  apply (new_row_cleaned_apart_from_errors errors.spec_table sample.trees
           sample.float sample.int
           (sample.row [("diameter", "12"); ("read only", "maybe")])
           "diameter").
  - apply (bool_decide_unpack _). vm_compute. reflexivity.
  - reflexivity.
  - reflexivity.
  - reflexivity.
  - vm_compute. by eexists.
Defined.

(** ** The row: unit conversion *)

Section units_facts.
Variable float : string -> option PrimFloat.float.
Variable float_of_int : Z -> option PrimFloat.float.

Lemma convert_fold_none l :
  foldl (Row.convert_step float float_of_int) None l = None.
Proof. induction l as [| kv l IH]; [done | exact IH]. Qed.

Lemma convert_fold_identity l data :
  (forall k x, (k, x) ∈ l -> PrimFloat.eqb x PrimFloat.one = true) ->
  foldl (Row.convert_step float float_of_int) (Some data) l = Some data.
Proof.
  induction l as [| [k x] l IH]; intros Hall; [done |].
  cbn [foldl]. unfold Row.convert_step at 2.
  rewrite (Hall k x) by (apply elem_of_cons; by left). simpl.
  assert (match data !! k with Some _ => Some data | None => Some data end
          = Some data) as -> by (by destruct (data !! k)).
  apply IH. intros k' x' Hin. apply (Hall k' x'). apply elem_of_cons. by right.
Qed.

Lemma convert_fold_lookup l data data' :
  NoDup l.*1 ->
  foldl (Row.convert_step float float_of_int) (Some data) l = Some data' ->
  forall f,
    data' !! f
    = match data !! f with
      | None => None
      | Some v =>
        match (list_to_map l : gmap string PrimFloat.float) !! f with
        | Some factor =>
          if negb (PrimFloat.eqb factor PrimFloat.one)
          then (fun x => VFloat (PrimFloat.mul (PrimFloat.mul x factor)
                                   Row.INCHES_TO_DBH_FACTOR))
               <$> Row.float_of_value float float_of_int v
          else Some v
        | None => Some v
        end
      end.
Proof.
  revert data. induction l as [| [k x] l IH]; intros data Hnd Hfold f.
  - simpl in Hfold. injection Hfold as <-. simpl. rewrite lookup_empty.
    by destruct (data !! f).
  - rewrite fmap_cons in Hnd. apply NoDup_cons in Hnd as [Hk Hnd].
    cbn [foldl] in Hfold.
    destruct (Row.convert_step float float_of_int (Some data) (k, x))
      as [data1 |] eqn:Hstep; [| by rewrite convert_fold_none in Hfold].
    rewrite (IH data1 Hnd Hfold f). cbn [list_to_map foldr].
    unfold Row.convert_step in Hstep.
    destruct (decide (f = k)) as [-> | Hne].
    + rewrite (not_elem_of_list_to_map_1 _ _ Hk), lookup_insert_eq. cbn [snd].
      destruct (data !! k) as [v |] eqn:Hv.
      * destruct (negb (PrimFloat.eqb x PrimFloat.one)).
        -- destruct (Row.float_of_value float float_of_int v) as [y |];
             [| discriminate].
           injection Hstep as <-. by rewrite lookup_insert_eq.
        -- injection Hstep as <-. by rewrite Hv.
      * injection Hstep as <-. by rewrite Hv.
    + rewrite lookup_insert_ne by done.
      assert (data1 !! f = data !! f) as ->; [| done].
      destruct (data !! k) as [v |]; [| by injection Hstep as <-].
      destruct (negb (PrimFloat.eqb x PrimFloat.one));
        [| by injection Hstep as <-].
      destruct (Row.float_of_value float float_of_int v) as [y |];
        [| discriminate].
      injection Hstep as <-. by rewrite lookup_insert_ne.
Qed.
End units_facts.

(** X18: [convert_units] with every factor equal to 1.0 changes nothing
    and raises nothing, whatever the values of [data] are. *)
Theorem convert_units_factor_one
    (float : string -> option PrimFloat.float)
    (float_of_int : Z -> option PrimFloat.float)
    (data : gmap string value) (converts : gmap string PrimFloat.float) :
  (forall k x, converts !! k = Some x ->
               PrimFloat.eqb x PrimFloat.one = true) ->
  Row.convert_units float float_of_int data converts = Some data.
Proof.
  intros Hall. unfold Row.convert_units. apply convert_fold_identity.
  intros k x Hin. apply (Hall k x). by apply elem_of_map_to_list.
Qed.

Lemma convert_units_factor_one_witness :
  Row.convert_units sample.float (fun n => Some (sample.float_of_Z n))
    {["diameter" := VStr "wide"]} {["diameter" := PrimFloat.one]}
  = Some {["diameter" := VStr "wide"]}.
Proof.
  apply convert_units_factor_one. intros k x Hk.
  apply lookup_singleton_Some in Hk as [_ <-]. reflexivity.
Defined.

(** X19: when [convert_units] returns, the dict has the keys it had: a
    field with a factor other than 1.0 holds the float of its old value
    times the factor (times the inches factor, 1.0); every other field
    holds its old value. *)
Theorem convert_units_lookup
    (float : string -> option PrimFloat.float)
    (float_of_int : Z -> option PrimFloat.float)
    (data data' : gmap string value) (converts : gmap string PrimFloat.float)
    (f : string) :
  Row.convert_units float float_of_int data converts = Some data' ->
  data' !! f
  = match data !! f with
    | None => None
    | Some v =>
      match converts !! f with
      | Some factor =>
        if negb (PrimFloat.eqb factor PrimFloat.one)
        then (fun x => VFloat (PrimFloat.mul (PrimFloat.mul x factor)
                                 Row.INCHES_TO_DBH_FACTOR))
             <$> Row.float_of_value float float_of_int v
        else Some v
      | None => Some v
      end
    end.
Proof.
  intros Hconv. unfold Row.convert_units in Hconv.
  rewrite (convert_fold_lookup float float_of_int _ data data'
             (NoDup_fst_map_to_list converts) Hconv f).
  by rewrite list_to_map_to_list.
Qed.

Lemma convert_units_lookup_witness :
  exists data',
    Row.convert_units sample.float (fun n => Some (sample.float_of_Z n))
      {["diameter" := VInt 12]} {["diameter" := PrimFloat.of_uint63 2]}
    = Some data'
    /\ data' !! "diameter"
       = Some (VFloat (PrimFloat.mul
                         (PrimFloat.mul (PrimFloat.of_uint63 12)
                            (PrimFloat.of_uint63 2))
                         Row.INCHES_TO_DBH_FACTOR)).
Proof.
  exists {["diameter" := VFloat (PrimFloat.of_uint63 24)]}.
  split; [vm_compute; reflexivity |].
  rewrite (convert_units_lookup sample.float
             (fun n => Some (sample.float_of_Z n))
             {["diameter" := VInt 12]}
             {["diameter" := VFloat (PrimFloat.of_uint63 24)]}
             {["diameter" := PrimFloat.of_uint63 2]} "diameter")
    by (vm_compute; reflexivity).
  vm_compute. reflexivity.
Defined.

(** ** The row: a pass as a function of the raw data *)

Lemma insert_all_app m l1 l2 :
  insert_all m (l1 ++ l2) = insert_all (insert_all m l1) l2.
Proof. apply foldl_app. Qed.

Lemma insert_all_union m kvs :
  insert_all m kvs = list_to_map (reverse kvs) ∪ m.
Proof.
  revert m. induction kvs as [| [k v] kvs IH]; intros m.
  - simpl. by rewrite (left_id_L ∅ (∪)).
  - unfold insert_all in *. cbn [foldl]. rewrite IH, reverse_cons.
    rewrite list_to_map_app. simpl.
    rewrite <- (assoc_L (∪)). f_equal.
    by rewrite <- insert_union_l, (left_id_L ∅ (∪)).
Qed.

Lemma insert_all_twice m kvs :
  insert_all (insert_all m kvs) kvs = insert_all m kvs.
Proof.
  rewrite !insert_all_union, (assoc_L (∪)). f_equal. apply (idemp_L (∪)).
Qed.

Lemma acts_none s : acts s s no_effect.
Proof. repeat split. simpl. by rewrite app_nil_r. Qed.

Lemma acts_seq s s1 s2 e1 e2 :
  acts s s1 e1 -> acts s1 s2 e2 -> acts s s2 (effect_seq e1 e2).
Proof.
  intros (Hd1 & Hc1 & He1) (Hd2 & Hc2 & He2).
  split; [congruence |]. split.
  - simpl. by rewrite insert_all_app, <- Hc1.
  - simpl. rewrite He2, He1. by rewrite <- app_assoc.
Qed.

Lemma acts_writes k v s : acts s (Row.set_cleaned k v s) (writes k v).
Proof. repeat split. simpl. by rewrite app_nil_r. Qed.

Lemma acts_reports err f s :
  acts s (Row.append_error err (Field f) None s) (reports err f).
Proof.
  pose proof (row_append_error_data err (Field f) None s) as [Hd Hc].
  split; [done |]. split; [done |]. apply row_append_error_as_array.
Qed.

Lemma for_each_acts body (eff : gmap string string -> string -> effect) l h s :
  (forall st g, acts st.2 (body st g).2 (eff (Row.datadict st.2) g)) ->
  acts s (Row.for_each body l h s).2 (loop_effect (eff (Row.datadict s)) l).
Proof.
  intros Hbody. unfold Row.for_each, loop_effect.
  assert (forall e0 h0 s0 t,
            acts t s0 e0 -> Row.datadict s0 = Row.datadict s ->
            acts t (foldl body (h0, s0) l).2
              (foldl (fun acc g => effect_seq acc (eff (Row.datadict s) g)) e0 l))
    as Hgen.
  { induction l as [| g l IH]; intros e0 h0 s0 t Hacts Hdata; [exact Hacts |].
    cbn [foldl]. specialize (Hbody (h0, s0) g). simpl in Hbody.
    destruct (body (h0, s0) g) as [h1 s1]. simpl in Hbody.
    apply IH.
    - rewrite <- Hdata. exact (acts_seq _ _ _ _ _ Hacts Hbody).
    - destruct Hbody as [Hd _]. congruence. }
  apply Hgen; [apply acts_none | done].
Qed.

Lemma cleanup_body_acts {A} (inj : A -> value) (parse : string -> option A)
    (ok : A -> bool) perr rerr (fn : string -> Row.t -> option A * Row.t) st g :
  (forall s raw,
      Row.datadict s !! g = Some raw ->
      fn g s = match parse raw with
               | None => (None, Row.append_error perr (Field g) None s)
               | Some x =>
                 if ok x then (Some x, s)
                 else (None, Row.append_error rerr (Field g) None s)
               end) ->
  acts st.2 (Row.cleanup_body inj fn st g).2
    (number_effect inj parse ok perr rerr (Row.datadict st.2) g).
Proof.
  intros Hfn. destruct st as [h s]. unfold Row.cleanup_body, number_effect.
  simpl. destruct (Row.datadict s !! g) as [raw |] eqn:Hraw; [| apply acts_none].
  destruct (truthy raw); [| apply acts_none].
  rewrite (Hfn s raw Hraw).
  destruct (parse raw) as [x |]; [| apply acts_reports].
  destruct (ok x); [apply acts_writes | apply acts_reports].
Qed.

Lemma pass_acts E mf float int (s : Row.t) :
  acts s (Row.validate_and_convert_datatypes E mf float int s)
    (pass_effect E mf float int (Row.datadict s)).
Proof.
  rewrite validate_and_convert_datatypes_state, validate_numeric_fields_state.
  unfold Row.validate_date_fields, Row.validate_string_fields,
    Row.validate_boolean_fields, Row.cleanup, pass_effect.
  set (dd := Row.datadict s).
  pose proof (for_each_acts
                (Row.cleanup_body VFloat (Row.safe_pos_float E float))
                (number_effect VFloat float float_not_negative
                   (errors.FLOAT_ERROR E) (errors.POS_FLOAT_ERROR E))
                (POS_FLOAT_FIELDS mf) false s) as H1.
  set (s1 := (Row.for_each _ (POS_FLOAT_FIELDS mf) false s).2) in *.
  pose proof (for_each_acts
                (Row.cleanup_body VFloat (Row.safe_float E float))
                (number_effect VFloat float any_number
                   (errors.FLOAT_ERROR E) (errors.FLOAT_ERROR E))
                (FLOAT_FIELDS mf) false s1) as H2.
  set (s2 := (Row.for_each _ (FLOAT_FIELDS mf) false s1).2) in *.
  pose proof (for_each_acts
                (Row.cleanup_body VInt (Row.safe_pos_int E int))
                (number_effect VInt int int_not_negative
                   (errors.INT_ERROR E) (errors.POS_INT_ERROR E))
                (POS_INT_FIELDS mf) false s2) as H3.
  set (s3 := (Row.for_each _ (POS_INT_FIELDS mf) false s2).2) in *.
  pose proof (for_each_acts (Row.boolean_body E) (boolean_effect E)
                (BOOLEAN_FIELDS mf) false s3) as H4.
  set (s4 := (Row.for_each _ (BOOLEAN_FIELDS mf) false s3).2) in *.
  pose proof (for_each_acts (Row.string_body E) (string_effect E)
                (STRING_FIELDS mf) false s4) as H5.
  set (s5 := (Row.for_each _ (STRING_FIELDS mf) false s4).2) in *.
  pose proof (for_each_acts (Row.date_body E mf) (date_effect E mf)
                (DATE_FIELDS mf) false s5) as H6.
  assert (acts s s1 (loop_effect
                      (number_effect VFloat float float_not_negative
                         (errors.FLOAT_ERROR E) (errors.POS_FLOAT_ERROR E) dd)
                      (POS_FLOAT_FIELDS mf))) as A1.
  { apply H1. intros st g. apply cleanup_body_acts. intros t raw Hraw.
    unfold Row.safe_pos_float, Row.safe_float, float_not_negative.
    rewrite Hraw. simpl. destruct (float raw) as [x |]; [| done].
    by destruct (PrimFloat.ltb x PrimFloat.zero). }
  assert (Row.datadict s1 = dd) as D1 by (by destruct A1).
  rewrite D1 in H2.
  assert (acts s1 s2 (loop_effect
                       (number_effect VFloat float any_number
                          (errors.FLOAT_ERROR E) (errors.FLOAT_ERROR E) dd)
                       (FLOAT_FIELDS mf))) as A2.
  { apply H2. intros st g. apply cleanup_body_acts. intros t raw Hraw.
    unfold Row.safe_float. rewrite Hraw. simpl. by destruct (float raw). }
  assert (Row.datadict s2 = dd) as D2 by (destruct A2; congruence).
  rewrite D2 in H3.
  assert (acts s2 s3 (loop_effect
                       (number_effect VInt int int_not_negative
                          (errors.INT_ERROR E) (errors.POS_INT_ERROR E) dd)
                       (POS_INT_FIELDS mf))) as A3.
  { apply H3. intros st g. apply cleanup_body_acts. intros t raw Hraw.
    unfold Row.safe_pos_int, Row.safe_int, int_not_negative.
    rewrite Hraw. simpl. destruct (int raw) as [n |]; [| done].
    by destruct (n <? 0). }
  assert (Row.datadict s3 = dd) as D3 by (destruct A3; congruence).
  rewrite D3 in H4.
  assert (acts s3 s4 (loop_effect (boolean_effect E dd) (BOOLEAN_FIELDS mf)))
    as A4.
  { apply H4. intros [h t] g. unfold Row.boolean_body, Row.safe_bool,
      boolean_effect. simpl.
    destruct (Row.datadict t !! g) as [raw |]; [| apply acts_none]. simpl.
    destruct (String.eqb (lower raw) ""); [apply acts_none |].
    destruct (_ || _); [apply acts_writes |].
    destruct (_ || _); [apply acts_writes | apply acts_reports]. }
  assert (Row.datadict s4 = dd) as D4 by (destruct A4; congruence).
  rewrite D4 in H5.
  assert (acts s4 s5 (loop_effect (string_effect E dd) (STRING_FIELDS mf)))
    as A5.
  { apply H5. intros [h t] g. unfold Row.string_body, string_effect. simpl.
    destruct (Row.datadict t !! g) as [val |]; [| apply acts_none].
    destruct (truthy val); [| apply acts_none].
    destruct (255 <? _); [apply acts_reports | apply acts_writes]. }
  assert (Row.datadict s5 = dd) as D5 by (destruct A5; congruence).
  rewrite D5 in H6.
  assert (acts s5 (Row.for_each (Row.date_body E mf) (DATE_FIELDS mf) false s5).2
            (loop_effect (date_effect E mf dd) (DATE_FIELDS mf))) as A6.
  { apply H6. intros [h t] g. unfold Row.date_body, date_effect. simpl.
    destruct (Row.datadict t !! g) as [val |]; [| apply acts_none].
    destruct (truthy val); [| apply acts_none].
    destruct (datetime.strptime_Ymd val); [apply acts_writes | apply acts_reports]. }
  exact (acts_seq _ _ _ _ _ A1
           (acts_seq _ _ _ _ _ A2
              (acts_seq _ _ _ _ _ A3
                 (acts_seq _ _ _ _ _ A4 (acts_seq _ _ _ _ _ A5 A6))))).
Qed.

(** X20: validating a row a second time changes nothing of [cleaned] and
    appends once more, in the same order, the errors the first pass
    appended: the error list is not idempotent. *)
Theorem second_pass_repeats_errors (E : errors.table) (mf : catalog)
    (float : string -> option PrimFloat.float) (int : string -> option Z)
    (self : Row.t) :
  let once := Row.validate_and_convert_datatypes E mf float int self in
  let twice := Row.validate_and_convert_datatypes E mf float int once in
  Row.cleaned twice = Row.cleaned once
  /\ exists new,
       Row.errors_as_array once = (Row.errors_as_array self ++ new)%list
       /\ Row.errors_as_array twice
          = (Row.errors_as_array self ++ new ++ new)%list.
Proof.
  cbv zeta.
  destruct (pass_acts E mf float int self) as (Hd1 & Hc1 & He1).
  destruct (pass_acts E mf float int
              (Row.validate_and_convert_datatypes E mf float int self))
    as (_ & Hc2 & He2).
  rewrite Hd1 in Hc2, He2. split.
  - rewrite Hc2, Hc1. apply insert_all_twice.
  - eexists. split; [exact He1 |]. rewrite He2, He1. by rewrite <- app_assoc.
Qed.
